(** * Passbolt-Simple-Python-API: the client of [passbolt.py]

    A shallow embedding of the class [PassboltAPI].  The client is a thin
    orchestration over three collaborators that are not part of the
    repository: the HTTP transport (httpx), the JSON and URL codecs
    (json, urllib) and the PGP engine (python-gnupg).  The transport is a
    script of responses consumed one per request together with the log of
    the requests sent; the codecs and the engine are an interface the
    development is parametric in.

    A method is a function from the world before the call to its outcome
    and the world after it; an exception is an outcome, and what the
    method changed before raising stays changed.  A [str] is a [string],
    one [ascii] per character.  The object is taken as [__init__] leaves
    it before it calls [login]: its URLs and its fingerprint are fields.
    The cookie jar that httpx keeps inside the session is a collaborator
    of its own: every response received goes through it. *)

From Stdlib Require Import ZArith List String Ascii Bool Lia.
From Stdlib Require Import Floats.SpecFloat.
Import ListNotations.

Local Open Scope string_scope.
Local Open Scope Z_scope.
Local Open Scope list_scope.

(** ** Python values and the built-ins the client uses *)

Module Py.

(** What [json.loads] yields, which is also what the client puts in its
    request bodies: [None], [bool], [int], [float], [str], [list] and
    [dict].  A [dict] is its items in insertion order; [json.loads] never
    yields two items with one key. *)
#[warnings="-register-all"] Inductive json : Type :=
| JNull
| JBool (b : bool)
| JInt (n : Z)
| JFloat (f : spec_float)
| JStr (s : string)
| JArr (items : list json)
| JObj (items : list (string * json)).

(** The exceptions that reach the caller. *)
Inductive exn : Type :=
| KeyError
| TypeError
| IndexError
| AttributeError
| ValueError
| JSONDecodeError
| OSError
| TransportError.

Inductive result (A : Type) : Type :=
| Ok (a : A)
| Raise (e : exn).
Arguments Ok {A} a.
Arguments Raise {A} e.

Fixpoint assoc {A : Type} (k : string) (m : list (string * A)) : option A :=
  match m with
  | [] => None
  | (k', v) :: m' => if String.eqb k k' then Some v else assoc k m'
  end.

(** [v[k]] for a [str] key [k]. *)
Definition getitem (v : json) (k : string) : result json :=
  match v with
  | JObj m => match assoc k m with Some x => Ok x | None => Raise KeyError end
  | _ => Raise TypeError
  end.

(** [v[0]]. *)
Definition getitem0 (v : json) : result json :=
  match v with
  | JArr (x :: _) => Ok x
  | JArr [] => Raise IndexError
  | JStr (String c _) => Ok (JStr (String c EmptyString))
  | JStr EmptyString => Raise IndexError
  | JObj _ => Raise KeyError
  | _ => Raise TypeError
  end.

(** [v.get(k)]: only a [dict] has the method. *)
Definition dict_get (v : json) (k : string) : result json :=
  match v with
  | JObj m => Ok (match assoc k m with Some x => x | None => JNull end)
  | _ => Raise AttributeError
  end.

(** [os.environ.get(k, default)]. *)
Definition environ_get (env : list (string * string)) (k default : string) : string :=
  match assoc k env with Some x => x | None => default end.

(** The exact value of a float compared with an integer, as [float.__eq__]
    does it. *)
Definition float_eq_int (f : spec_float) (n : Z) : bool :=
  match f with
  | S754_zero _ => n =? 0
  | S754_finite s m e =>
      let v := if s then Z.neg m else Z.pos m in
      if 0 <=? e then v * 2 ^ e =? n else v =? n * 2 ^ (- e)
  | _ => false
  end.

(** [v == n] for an [int] literal [n]. *)
Definition eq_int (v : json) (n : Z) : bool :=
  match v with
  | JInt m => m =? n
  | JBool b => Z.b2z b =? n
  | JFloat f => float_eq_int f n
  | _ => false
  end.

(** [v == s] for a [str] [s]. *)
Definition eq_str (v : json) (s : string) : bool :=
  match v with
  | JStr t => String.eqb t s
  | _ => false
  end.

(** Truth value of [if v:]. *)
Definition truthy (v : json) : bool :=
  match v with
  | JNull => false
  | JBool b => b
  | JInt n => negb (n =? 0)
  | JFloat (S754_zero _) => false
  | JFloat _ => true
  | JStr s => negb (String.eqb s "")
  | JArr l => match l with [] => false | _ => true end
  | JObj m => match m with [] => false | _ => true end
  end.

(** What [for x in v] iterates over. *)
Definition iter (v : json) : result (list json) :=
  match v with
  | JArr l => Ok l
  | JObj m => Ok (map (fun kv => JStr (fst kv)) m)
  | JStr s => Ok (map (fun c => JStr (String c EmptyString)) (list_ascii_of_string s))
  | _ => Raise TypeError
  end.

(** [s[a:b]] with Python's clamping of the two bounds. *)
Definition clamp (i n : Z) : Z :=
  if i <? 0 then Z.max 0 (n + i) else Z.min i n.

Definition slice (s : string) (a b : Z) : string :=
  let n := Z.of_nat (String.length s) in
  let a' := clamp a n in
  let b' := clamp b n in
  substring (Z.to_nat a') (Z.to_nat (b' - a')) s.

(** [s.startswith(p)]. *)
Fixpoint startswith (s p : string) {struct p} : bool :=
  match p with
  | EmptyString => true
  | String a p' =>
      match s with
      | EmptyString => false
      | String b s' => Ascii.eqb a b && startswith s' p'
      end
  end.

(** [s.replace(old, new)]: the occurrences of [old] are found from the
    left and do not overlap.  [skip] counts the characters of an occurrence
    that was just replaced and are still to be dropped. *)
Fixpoint replace_from (old new : string) (skip : nat) (s : string) : string :=
  match s with
  | EmptyString => EmptyString
  | String c s' =>
      match skip with
      | S k => replace_from old new k s'
      | O =>
          if startswith s old
          then (new ++ replace_from old new (Nat.pred (String.length old)) s')%string
          else String c (replace_from old new O s')
      end
  end.

Fixpoint intersperse (new s : string) : string :=
  match s with
  | EmptyString => new
  | String c s' => (new ++ String c (intersperse new s'))%string
  end.

Definition replace (old new s : string) : string :=
  match old with
  | EmptyString => intersperse new s
  | _ => replace_from old new O s
  end.

End Py.
Export Py.

(** ** The collaborators *)

(** A response of the transport: [response.status_code],
    [response.headers.get] and [response.text]. *)
Record response : Type := mkResponse {
  status_code : Z;
  headers_get : string -> option string;
  text : string
}.

Inductive verb : Type := GET | POST | PUT.

(** A request as the session sends it: the [json=] body when there is one,
    and the session's headers at that moment. *)
Record request : Type := mkRequest {
  method : verb;
  url : string;
  json_body : option json;
  sent_headers : list (string * string)
}.

(** One line of console output, by the call that wrote it. *)
Inductive output : Type :=
| OutPprint (v : json)
| OutStr (s : string)
| OutHeaders (r : response)
| OutResponse (r : response)
| OutBlank.

(** The result object of the engine's [decrypt] and [encrypt]; [str()] of
    it is its data. *)
Record crypt : Type := mkCrypt {
  ok : bool;
  data : string
}.

Definition str (c : crypt) : string := data c.

(** The codecs and the PGP engine.  [keyring] is the state of the engine
    (the ephemeral key store and whatever randomness encryption draws on);
    an operation yields a result or raises, and leaves a new state. *)
Class Externals : Type := {
  json_loads : string -> option json;
  unquote : string -> string;
  keyring : Type;
  gpg_import_keys : json -> keyring -> result unit * keyring;
  gpg_decrypt : json -> json -> keyring -> result crypt * keyring;
  gpg_encrypt : string -> json -> bool -> keyring -> result crypt * keyring
}.

(** The cookie jar of the session.  [httpx.Client] keeps one and hands
    it every response the client receives ([extract_cookies]); what the
    jar makes of a response is the library's. *)
Class CookieJar : Type := {
  jar : Type;
  extract_cookies : jar -> response -> jar
}.

(** ** The client object *)

(** The attributes of a [PassboltAPI] instance.  [session_headers] is
    [self.session.headers]; [cookies] is the attribute [self.cookies]. *)
Record client : Type := mkClient {
  config : json;
  FINGERPRINT : json;
  base_url : string;
  login_url : string;
  users_url : string;
  me_url : string;
  groups_url : string;
  authenticated : bool;
  token : json;
  USER_ID : json;
  pgp_message : json;
  nonce : option crypt;
  session_headers : list (string * string);
  cookies : list (string * string)
}.

Definition set_config (v : json) (c : client) : client :=
  mkClient v (FINGERPRINT c) (base_url c) (login_url c) (users_url c)
    (me_url c) (groups_url c) (authenticated c) (token c) (USER_ID c)
    (pgp_message c) (nonce c) (session_headers c) (cookies c).

Definition set_authenticated (b : bool) (c : client) : client :=
  mkClient (config c) (FINGERPRINT c) (base_url c) (login_url c) (users_url c)
    (me_url c) (groups_url c) b (token c) (USER_ID c)
    (pgp_message c) (nonce c) (session_headers c) (cookies c).

Definition set_token (v : json) (c : client) : client :=
  mkClient (config c) (FINGERPRINT c) (base_url c) (login_url c) (users_url c)
    (me_url c) (groups_url c) (authenticated c) v (USER_ID c)
    (pgp_message c) (nonce c) (session_headers c) (cookies c).

Definition set_USER_ID (v : json) (c : client) : client :=
  mkClient (config c) (FINGERPRINT c) (base_url c) (login_url c) (users_url c)
    (me_url c) (groups_url c) (authenticated c) (token c) v
    (pgp_message c) (nonce c) (session_headers c) (cookies c).

Definition set_pgp_message (v : json) (c : client) : client :=
  mkClient (config c) (FINGERPRINT c) (base_url c) (login_url c) (users_url c)
    (me_url c) (groups_url c) (authenticated c) (token c) (USER_ID c)
    v (nonce c) (session_headers c) (cookies c).

Definition set_nonce (v : option crypt) (c : client) : client :=
  mkClient (config c) (FINGERPRINT c) (base_url c) (login_url c) (users_url c)
    (me_url c) (groups_url c) (authenticated c) (token c) (USER_ID c)
    (pgp_message c) v (session_headers c) (cookies c).

Definition set_session_headers (v : list (string * string)) (c : client) : client :=
  mkClient (config c) (FINGERPRINT c) (base_url c) (login_url c) (users_url c)
    (me_url c) (groups_url c) (authenticated c) (token c) (USER_ID c)
    (pgp_message c) (nonce c) v (cookies c).

Section Client.

Context {X : Externals}.

(** Everything a method can read or change: the object, the engine, the
    responses still to come, the requests sent so far, the console, and
    the host's files and environment.  [file_at dir name] is [None] when
    [Path(dir, name).is_file()] is false; when it is true, it is what
    opening the file and reading it as text gives, the text or the
    exception raised ([OSError] on opening, [UnicodeDecodeError] on
    reading bytes that are not text). *)
Record world : Type := mkWorld {
  self : client;
  gpg : keyring;
  inbox : list response;
  outbox : list request;
  console : list output;
  file_at : string -> string -> option (result string);
  environ : list (string * string)
}.

Definition with_self (c : client) (w : world) : world :=
  mkWorld c (gpg w) (inbox w) (outbox w) (console w) (file_at w) (environ w).

Definition with_gpg (g : keyring) (w : world) : world :=
  mkWorld (self w) g (inbox w) (outbox w) (console w) (file_at w) (environ w).

Definition with_console (o : list output) (w : world) : world :=
  mkWorld (self w) (gpg w) (inbox w) (outbox w) o (file_at w) (environ w).

(** A method: it ends with a value or an exception, and what it changed
    before an exception stays changed. *)
Definition M (A : Type) : Type := world -> result A * world.

Definition ret {A : Type} (a : A) : M A := fun w => (Ok a, w).

Definition raise {A : Type} (e : exn) : M A := fun w => (Raise e, w).

Definition bind {A B : Type} (m : M A) (k : A -> M B) : M B :=
  fun w =>
    match m w with
    | (Ok a, w') => k a w'
    | (Raise e, w') => (Raise e, w')
    end.

Definition lift {A : Type} (r : result A) : M A := fun w => (r, w).

Definition get_self : M client := fun w => (Ok (self w), w).

Definition update_self (f : client -> client) : M unit :=
  fun w => (Ok tt, with_self (f (self w)) w).

Definition emit (o : output) : M unit :=
  fun w => (Ok tt, with_console (console w ++ [o]) w).

Definition call_gpg {A : Type} (op : keyring -> result A * keyring) : M A :=
  fun w => let (r, g) := op (gpg w) in (r, with_gpg g w).

(** [json.loads(s)]. *)
Definition loads (s : string) : M json :=
  match json_loads s with
  | Some v => ret v
  | None => raise JSONDecodeError
  end.

(** [self.session.request(...)]: the request goes out, and the next
    response of the script comes back; the transport raises when the
    script has none left. *)
Definition send (m : verb) (u : string) (body : option json) : M response :=
  fun w =>
    let rq := mkRequest m u body (session_headers (self w)) in
    match inbox w with
    | [] =>
        (Raise TransportError,
         mkWorld (self w) (gpg w) [] (outbox w ++ [rq]) (console w)
           (file_at w) (environ w))
    | r :: rest =>
        (Ok r,
         mkWorld (self w) (gpg w) rest (outbox w ++ [rq]) (console w)
           (file_at w) (environ w))
    end.

End Client.

Declare Scope py_scope.
Delimit Scope py_scope with py.
Notation "x <- m ;; k" := (bind m (fun x => k))
  (at level 61, m at next level, right associativity) : py_scope.
Notation "m ;; k" := (bind m (fun _ => k))
  (at level 61, right associativity) : py_scope.
Local Open Scope py_scope.

(** ** The methods of [PassboltAPI] *)

Section Methods.

Context {X : Externals}.

(** [load_config]: the mapping when it is truthy, else the file when
    [Path(config_filepath, config_filename).is_file()], opened, read and
    decoded, else the environment with its fallbacks. *)
Definition load_config (config_filename config_filepath : string)
    (dict_config : json) : M unit :=
  fun w =>
    if truthy dict_config then
      update_self (set_config dict_config) w
    else
      match file_at w config_filepath config_filename with
      | Some (Raise e) => raise e w
      | Some (Ok content) =>
          (parsed <- loads content ;;
           update_self (set_config parsed)) w
      | None =>
          update_self (set_config (JObj [
            ("gpgbinary", JStr (environ_get (environ w) "PASSBOLT_GPGBINARY" "gpg"));
            ("base_url", JStr (environ_get (environ w) "PASSBOLT_BASEURL" "https://undefined"));
            ("private_key", JStr (environ_get (environ w) "PASSBOLT_PRIVATE_KEY" "undefined"));
            ("passphrase", JStr (environ_get (environ w) "PASSBOLT_PASSPHRASE" "gpg"))
          ])) w
      end.

Definition stage1 : M json :=
  me <- get_self ;;
  let post := JObj [("data", JObj [("gpg_auth", JObj [("keyid", FINGERPRINT me)])])] in
  response <- send POST (login_url me) (Some post) ;;
  decoded_response <- loads (text response) ;;
  header <- lift (getitem decoded_response "header") ;;
  code <- lift (getitem header "code") ;;
  if eq_int code 200 then
    match headers_get response "x-gpgauth-user-auth-token" with
    | Some h => ret (JStr (replace "\+" " " (unquote h)))
    | None => raise TypeError
    end
  else
    (emit (OutPprint decoded_response) ;;
     ret JNull).

Definition decrypt (message : json) : M crypt :=
  me <- get_self ;;
  passphrase <- lift (dict_get (config me) "passphrase") ;;
  call_gpg (gpg_decrypt message passphrase).

Definition encrypt (message : string) (public_key : json) : M crypt :=
  armored_key <- lift (getitem public_key "armored_key") ;;
  call_gpg (gpg_import_keys armored_key) ;;
  fingerprint <- lift (getitem public_key "fingerprint") ;;
  call_gpg (gpg_encrypt message fingerprint true).

Definition stage2 (nonce : string) : M bool :=
  me <- get_self ;;
  let post := JObj [("data", JObj [("gpg_auth",
                JObj [("keyid", FINGERPRINT me); ("user_token_result", JStr nonce)])])] in
  response <- send POST (login_url me) (Some post) ;;
  decoded_response <- loads (text response) ;;
  header <- lift (getitem decoded_response "header") ;;
  code <- lift (getitem header "code") ;;
  if eq_int code 200 then ret true else ret false.

Definition get_cookie : M unit :=
  me <- get_self ;;
  response <- send GET (me_url me) None ;;
  let token := headers_get response "set-cookie" in
  user_id <- loads (text response) ;;
  body <- lift (getitem user_id "body") ;;
  id <- lift (getitem body "id") ;;
  update_self (set_USER_ID id) ;;
  match token with
  | None => raise TypeError
  | Some t =>
      update_self (set_token (JStr (slice t 10 (-8)))) ;;
      update_self (set_session_headers [("X-CSRF-Token", slice t 10 (-8))])
  end.

Definition check_login : M unit :=
  me <- get_self ;;
  response <- send GET (base_url me ++ "/")%string None ;;
  if negb (status_code response =? 200) then
    (emit (OutStr "Falha no login") ;;
     emit (OutResponse response))
  else ret tt.

Definition login : M unit :=
  m <- stage1 ;;
  update_self (set_pgp_message m) ;;
  me <- get_self ;;
  n <- decrypt (pgp_message me) ;;
  update_self (set_nonce (Some n)) ;;
  a <- stage2 (str n) ;;
  update_self (set_authenticated a) ;;
  get_cookie ;;
  check_login.

Definition get_users : M json :=
  me <- get_self ;;
  response <- send GET (users_url me) None ;;
  decoded_response <- loads (text response) ;;
  lift (getitem decoded_response "body").

Definition get_groups : M json :=
  me <- get_self ;;
  response <- send GET (groups_url me) None ;;
  decoded_response <- loads (text response) ;;
  lift (getitem decoded_response "body").

(** The loop the lookups share, [for item in items: if item[field] ==
    wanted: return item], falling off its end with [None]. *)
Fixpoint scan (field wanted : string) (items : list json) : result json :=
  match items with
  | [] => Ok JNull
  | item :: rest =>
      match getitem item field with
      | Raise e => Raise e
      | Ok v => if eq_str v wanted then Ok item else scan field wanted rest
      end
  end.

Definition get_user_by_email (email : string) : M json :=
  users <- get_users ;;
  items <- lift (iter users) ;;
  lift (scan "username" email items).

Definition get_user_by_id (id : string) : M json :=
  users <- get_users ;;
  items <- lift (iter users) ;;
  lift (scan "id" id items).

Definition get_group_by_name (group_name : string) : M json :=
  groups <- get_groups ;;
  items <- lift (iter groups) ;;
  lift (scan "name" group_name items).

Definition get_group_by_id (group_id : string) : M json :=
  groups <- get_groups ;;
  items <- lift (iter groups) ;;
  lift (scan "id" group_id items).

Definition create_group (group_name : string) : M response :=
  me <- get_self ;;
  let post := JObj [
    ("name", JStr group_name);
    ("groups_users", JArr [JObj [("user_id", USER_ID me); ("is_admin", JBool true)]])
  ] in
  response <- send POST (groups_url me) (Some post) ;;
  ret response.

Definition get_user_public_key (user_id : string) : M json :=
  me <- get_self ;;
  let url := (base_url me ++ "/users/" ++ user_id ++ ".json")%string in
  response <- send GET url None ;;
  decoded <- loads (text response) ;;
  user <- lift (getitem decoded "body") ;;
  lift (getitem user "gpgkey").

(** [secret["Secret"][0][field]]. *)
Definition secret_field (secret : json) (field : string) : M json :=
  s <- lift (getitem secret "Secret") ;;
  s0 <- lift (getitem0 s) ;;
  lift (getitem s0 field).

(** The body of [for secret in secrets] in [put_user_on_group], with the
    list it appends to. *)
Fixpoint reencrypt (user_id : string) (user_key : json) (secrets : list json)
    (secrets_list : list json) : M (list json) :=
  match secrets with
  | [] => ret secrets_list
  | secret :: rest =>
      d <- secret_field secret "data" ;;
      decrypted <- decrypt d ;;
      reencrypted <- encrypt (str decrypted) user_key ;;
      resource_id <- secret_field secret "resource_id" ;;
      reencrypt user_id user_key rest
        (secrets_list ++ [JObj [
           ("resource_id", resource_id);
           ("user_id", JStr user_id);
           ("data", JStr (str reencrypted))]])
  end.

Definition put_user_on_group (group_id user_id : string) (admin : bool) : M response :=
  me <- get_self ;;
  let post := JObj [
    ("id", JStr group_id);
    ("groups_users", JArr [JObj [("user_id", JStr user_id); ("is_admin", JBool admin)]])
  ] in
  let url := (base_url me ++ "/groups/" ++ group_id ++ "/dry-run.json")%string in
  response <- send PUT url (Some post) ;;
  if status_code response =? 200 then
    user_key <- get_user_public_key user_id ;;
    decoded <- loads (text response) ;;
    body <- lift (getitem decoded "body") ;;
    dry_run <- lift (getitem body "dry-run") ;;
    secrets <- lift (getitem dry_run "Secrets") ;;
    items <- lift (iter secrets) ;;
    secrets_list <- reencrypt user_id user_key items [] ;;
    let post := JObj [
      ("id", JStr group_id);
      ("groups_users", JArr [JObj [("user_id", JStr user_id); ("is_admin", JBool admin)]]);
      ("secrets", JArr secrets_list)
    ] in
    let url := (base_url me ++ "/groups/" ++ group_id ++ ".json")%string in
    response <- send PUT url (Some post) ;;
    ret response
  else
    (emit (OutHeaders response) ;;
     emit OutBlank ;;
     emit (OutStr (text response)) ;;
     emit OutBlank ;;
     ret response).

(** The loop of [get_group_user_id]. *)
Fixpoint scan_membership (group_id : string) (groups : list json) : result json :=
  match groups with
  | [] => Ok JNull
  | group :: rest =>
      match getitem group "group_id" with
      | Raise e => Raise e
      | Ok g =>
          if eq_str g group_id then getitem group "id"
          else scan_membership group_id rest
      end
  end.

Definition get_group_user_id (group_id user_id : string) : M json :=
  user <- get_user_by_id user_id ;;
  groups_users <- lift (getitem user "groups_users") ;;
  items <- lift (iter groups_users) ;;
  lift (scan_membership group_id items).

Definition update_user_to_group_admin (group_id user_id : string) : M response :=
  group_user_id <- get_group_user_id group_id user_id ;;
  me <- get_self ;;
  let post := JObj [
    ("id", JStr group_id);
    ("groups_users", JArr [JObj [("id", group_user_id); ("is_admin", JBool true)]])
  ] in
  let url := (base_url me ++ "/groups/" ++ group_id ++ "/dry-run.json")%string in
  response <- send PUT url (Some post) ;;
  if status_code response =? 200 then
    let url := (base_url me ++ "/groups/" ++ group_id ++ ".json")%string in
    response <- send PUT url (Some post) ;;
    ret response
  else
    (emit (OutHeaders response) ;;
     emit OutBlank ;;
     emit (OutStr (text response)) ;;
     emit OutBlank ;;
     ret response).

(** The envelope of a response reports success: its text decodes and
    [decoded["header"]["code"] == 200]. *)
Definition envelope_ok (r : response) : bool :=
  match json_loads (text r) with
  | None => false
  | Some decoded =>
      match getitem decoded "header" with
      | Raise _ => false
      | Ok header =>
          match getitem header "code" with
          | Raise _ => false
          | Ok code => eq_int code 200
          end
      end
  end.

(** The entity has the field, and the field equals the wanted text. *)
Definition has_field (field : string) (e : json) : bool :=
  match getitem e field with Ok _ => true | Raise _ => false end.

Definition field_is (field wanted : string) (e : json) : bool :=
  match getitem e field with Ok v => eq_str v wanted | Raise _ => false end.

(** What a lookup is to do on a listing [items]: [None] when no entity has
    the wanted value in the field, and the first entity in list order that
    has it otherwise. *)
Definition first_match_wins (op : string -> M json) (field : string)
    (items : list json) (w : world) : Prop :=
  forall wanted,
    ((forall e, In e items -> field_is field wanted e = false) ->
     fst (op wanted w) = Ok JNull) /\
    (forall before e after,
       items = before ++ e :: after ->
       (forall e', In e' before -> field_is field wanted e' = false) ->
       field_is field wanted e = true ->
       fst (op wanted w) = Ok e).

(** The id of the first membership record of the group, or [None]. *)
Definition membership_record_id (group_id : string) (memberships : list json) : json :=
  match find (field_is "group_id" group_id) memberships with
  | None => JNull
  | Some m => match getitem m "id" with Ok i => i | Raise _ => JNull end
  end.

(** The secrets of a dry-run, re-encrypted one by one for the user whose
    key is [user_key]: each entry carries the resource id of its secret,
    the user, and the secret decrypted with the client's passphrase and
    encrypted again to the fingerprint of the key just imported.  The
    engine goes from its state [g] to [g']. *)
Inductive reencrypted (cfg : json) (user_id : string) (user_key : json)
    : keyring -> list json -> list json -> keyring -> Prop :=
| reencrypted_nil (g : keyring) :
    reencrypted cfg user_id user_key g [] [] g
| reencrypted_cons (g g1 g2 g3 g' : keyring) (secret : json) (rest entries : list json)
    (inner first payload passphrase armored fingerprint resource_id : json)
    (plain cipher : crypt) :
    getitem secret "Secret" = Ok inner ->
    getitem0 inner = Ok first ->
    getitem first "data" = Ok payload ->
    dict_get cfg "passphrase" = Ok passphrase ->
    gpg_decrypt payload passphrase g = (Ok plain, g1) ->
    getitem user_key "armored_key" = Ok armored ->
    gpg_import_keys armored g1 = (Ok tt, g2) ->
    getitem user_key "fingerprint" = Ok fingerprint ->
    gpg_encrypt (str plain) fingerprint true g2 = (Ok cipher, g3) ->
    getitem first "resource_id" = Ok resource_id ->
    reencrypted cfg user_id user_key g3 rest entries g' ->
    reencrypted cfg user_id user_key g (secret :: rest)
      (JObj [("resource_id", resource_id); ("user_id", JStr user_id);
             ("data", JStr (str cipher))] :: entries) g'.

(** The console of [w'] is the console of [w] with more lines after it. *)
Definition console_grows (w w' : world) : Prop :=
  exists out, console w' = console w ++ out.

(** The requests sent up to [w'] are those sent up to [w] and more. *)
Definition outbox_grows (w w' : world) : Prop :=
  exists more, outbox w' = outbox w ++ more.

End Methods.

(** ** The cookies of the session *)

Section Session.

Context {X : Externals} {J : CookieJar}.

(** The responses the transport took off the script between [w] and
    [w']. *)
Definition received (w w' : world) : list response :=
  firstn (List.length (inbox w) - List.length (inbox w'))%nat (inbox w).

(** The jar of the session after the call [op] made from [w], when it
    was [j] before: every response received went through it. *)
Definition cookies_after {A : Type} (op : M A) (j : jar) (w : world) : jar :=
  fold_left extract_cookies (received w (snd (op w))) j.

End Session.

(** ** The read operations on resources, and what the properties speak of *)

Section Reads.

Context {X : Externals}.

Definition get_resource_secret (resourceId : string) : M json :=
  me <- get_self ;;
  let url := (base_url me ++ "/secrets/resource/" ++ resourceId ++ ".json")%string in
  response <- send GET url None ;;
  decoded <- loads (text response) ;;
  body <- lift (getitem decoded "body") ;;
  lift (getitem body "data").

Definition get_resources : M json :=
  me <- get_self ;;
  let url := (base_url me ++ "/resources.json")%string in
  response <- send GET url None ;;
  decoded <- loads (text response) ;;
  lift (getitem decoded "body").

Definition get_resource_per_uuid (uuid : string) : M json :=
  me <- get_self ;;
  let url := (base_url me ++ "/resources/" ++ uuid ++ ".json")%string in
  response <- send GET url None ;;
  decoded <- loads (text response) ;;
  lift (getitem decoded "body").

(** The world with another script of responses to come. *)
Definition with_inbox (script : list response) (w : world) : world :=
  mkWorld (self w) (gpg w) script (outbox w) (console w) (file_at w) (environ w).

(** A read: the call sends the one GET to [u] and takes the next response;
    the object, the engine and the console stay as they were. *)
Definition fetches_once {A : Type} (op : M A) (u : string) (w : world) : Prop :=
  let w' := snd (op w) in
  outbox w' = outbox w ++ [mkRequest GET u None (session_headers (self w))] /\
  inbox w' = tl (inbox w) /\
  self w' = self w /\ gpg w' = gpg w /\ console w' = console w.

(** The attributes that are set once, before [login]. *)
Definition same_settings (c c' : client) : Prop :=
  config c' = config c /\ FINGERPRINT c' = FINGERPRINT c /\
  base_url c' = base_url c /\ login_url c' = login_url c /\
  users_url c' = users_url c /\ me_url c' = me_url c /\
  groups_url c' = groups_url c /\ cookies c' = cookies c.

Definition settings_kept (w w' : world) : Prop := same_settings (self w) (self w').

(** The outcome of [op] does not depend on the status or the headers of
    the response it takes, only on its text. *)
Definition status_blind {A : Type} (op : M A) (w : world) : Prop :=
  forall r r' rest,
    text r = text r' ->
    op (with_inbox (r :: rest) w) = op (with_inbox (r' :: rest) w).

(** The entity carries the field with another value than the wanted one. *)
Definition passed_over (field wanted : string) (e : json) : Prop :=
  has_field field e = true /\ field_is field wanted e = false.

(** What a lookup that returned [v] has seen in the listing [items]:
    either [v] is [None] and every entity was passed over, or [v] is an
    entity of the listing with the wanted value, and those before it were
    passed over. *)
Definition found_in (field wanted : string) (items : list json) (v : json) : Prop :=
  (v = JNull /\ Forall (passed_over field wanted) items) \/
  (exists before after,
     items = before ++ v :: after /\
     field_is field wanted v = true /\
     Forall (passed_over field wanted) before).

Definition lookup_sound (op : string -> M json) (field : string) (w : world) : Prop :=
  forall wanted v,
    fst (op wanted w) = Ok v ->
    exists r rest decoded listing items,
      inbox w = r :: rest /\
      json_loads (text r) = Some decoded /\
      getitem decoded "body" = Ok listing /\
      iter listing = Ok items /\
      found_in field wanted items v.

End Reads.

(** ** A small instance of the collaborators, to run the client on *)

Module Demo.

Definition hex_digit (c : ascii) : option N :=
  let n := N_of_ascii c in
  if ((48 <=? n) && (n <=? 57))%N then Some (n - 48)%N
  else if ((65 <=? n) && (n <=? 70))%N then Some (n - 55)%N
  else if ((97 <=? n) && (n <=? 102))%N then Some (n - 87)%N
  else None.

(** [urllib.parse.unquote] on text whose escapes stand for single
    characters: [%XX] becomes the character of that code, and a [%] that
    two hexadecimal digits do not follow stays. *)
Fixpoint percent_decode (s : string) : string :=
  match s with
  | EmptyString => EmptyString
  | String c rest =>
      if Ascii.eqb c "%" then
        match rest with
        | String a (String b rest') =>
            match hex_digit a, hex_digit b with
            | Some h, Some l => String (ascii_of_N (16 * h + l)) (percent_decode rest')
            | _, _ => String c (percent_decode rest)
            end
        | _ => String c (percent_decode rest)
        end
      else String c (percent_decode rest)
  end.

(** The decoded values of the response texts the runs below use. *)
Definition envelope (code : Z) (body : json) : json :=
  JObj [("header", JObj [("code", JInt code)]); ("body", body)].

Definition alice_memberships : list json := [
  JObj [("id", JStr "m-1"); ("group_id", JStr "g-ops"); ("is_admin", JBool false)];
  JObj [("id", JStr "m-2"); ("group_id", JStr "g-dev"); ("is_admin", JBool false)]].

Definition alice : json :=
  JObj [("id", JStr "u-alice"); ("username", JStr "alice@example.com");
        ("groups_users", JArr alice_memberships)].

Definition bob : json :=
  JObj [("id", JStr "u-bob"); ("username", JStr "bob@example.com");
        ("groups_users", JArr [])].

Definition alice_again : json :=
  JObj [("id", JStr "u-alice"); ("username", JStr "alice@example.com");
        ("groups_users", JArr []); ("second", JBool true)].

Definition ops : json := JObj [("id", JStr "g-ops"); ("name", JStr "ops")].
Definition dev : json := JObj [("id", JStr "g-dev"); ("name", JStr "dev")].
Definition ops_again : json :=
  JObj [("id", JStr "g-ops"); ("name", JStr "ops"); ("second", JBool true)].

Definition bob_key : json :=
  JObj [("armored_key", JStr "KEY-BOB"); ("fingerprint", JStr "FPR-BOB")].

Definition secret_of (resource_id payload : string) : json :=
  JObj [("Secret", JArr [JObj [("resource_id", JStr resource_id); ("data", JStr payload)]])].

Definition table : list (string * json) := [
  ("ok", envelope 200 JNull);
  ("bad", envelope 400 JNull);
  ("me", envelope 200 (JObj [("id", JStr "u-me")]));
  ("forbidden", envelope 403 (JStr "Forbidden"));
  ("users", envelope 200 (JArr [bob; alice; alice_again]));
  ("groups", envelope 200 (JArr [dev; ops; ops_again]));
  ("bob", envelope 200 (JObj [("id", JStr "u-bob"); ("gpgkey", bob_key)]));
  ("dry-run", envelope 200 (JObj [("dry-run", JObj [("Secrets",
      JArr [secret_of "r-1" "enc:hunter2"; secret_of "r-2" "enc:s3cret"])])]));
  ("config", JObj [("base_url", JStr "https://file.example")])
].

(** A toy engine: the key store is the list of keys imported so far, a
    message decrypts when it starts with [enc:], and encryption tags the
    plaintext with the recipient. *)
Definition toy_import (k : json) (ring : list json) : result unit * list json :=
  (Ok tt, ring ++ [k]).

Definition toy_decrypt (message passphrase : json) (ring : list json)
    : result crypt * list json :=
  match message with
  | JStr s =>
      if startswith s "enc:"
      then (Ok (mkCrypt true (substring 4 (String.length s - 4) s)), ring)
      else (Ok (mkCrypt false ""), ring)
  | JNull => (Ok (mkCrypt false ""), ring)
  | _ => (Raise TypeError, ring)
  end.

Definition toy_encrypt (message : string) (recipient : json) (always_trust : bool)
    (ring : list json) : result crypt * list json :=
  match recipient with
  | JStr fpr => (Ok (mkCrypt true ("to:" ++ fpr ++ ":" ++ message)%string), ring)
  | _ => (Ok (mkCrypt false ""), ring)
  end.

#[export] Instance toy : Externals := {|
  json_loads := fun s => assoc s table;
  unquote := percent_decode;
  keyring := list json;
  gpg_import_keys := toy_import;
  gpg_decrypt := toy_decrypt;
  gpg_encrypt := toy_encrypt
|}.

(** A jar of names and values: it takes the name and the value of a
    [set-cookie] header, in place of an older cookie of that name. *)
Fixpoint text_before (c : ascii) (s : string) : string :=
  match s with
  | EmptyString => EmptyString
  | String x s' => if Ascii.eqb x c then EmptyString else String x (text_before c s')
  end.

Fixpoint text_after (c : ascii) (s : string) : string :=
  match s with
  | EmptyString => EmptyString
  | String x s' => if Ascii.eqb x c then s' else text_after c s'
  end.

Definition toy_extract (j : list (string * string)) (r : response)
    : list (string * string) :=
  match headers_get r "set-cookie" with
  | None => j
  | Some h =>
      let name := text_before "=" h in
      (name, text_before ";" (text_after "=" h))
      :: filter (fun kv => negb (String.eqb (fst kv) name)) j
  end.

Definition toy_jar : CookieJar := {|
  jar := list (string * string);
  extract_cookies := toy_extract
|}.

Definition reply (status : Z) (body : string) : response :=
  mkResponse status (fun _ => None) body.

Definition reply_with (status : Z) (name value body : string) : response :=
  mkResponse status (fun h => if String.eqb h name then Some value else None) body.

Definition me : client := {|
  config := JObj [("base_url", JStr "https://pb.example"); ("passphrase", JStr "pw")];
  FINGERPRINT := JStr "FPR-ME";
  base_url := "https://pb.example";
  login_url := "https://pb.example/auth/login.json";
  users_url := "https://pb.example/users.json";
  me_url := "https://pb.example/users/me.json";
  groups_url := "https://pb.example/groups.json";
  authenticated := false;
  token := JNull;
  USER_ID := JNull;
  pgp_message := JNull;
  nonce := None;
  session_headers := [];
  cookies := []
|}.

Definition logged_in : client :=
  set_session_headers [("X-CSRF-Token", "tok")]
    (set_token (JStr "tok") (set_USER_ID (JStr "u-me") (set_authenticated true me))).

Definition facing (c : client) (script : list response) : world :=
  mkWorld c [] script [] [] (fun _ _ => None) [].

(** The scripts and worlds of the runs. *)
Definition handshake_ok : list response :=
  [reply_with 200 "x-gpgauth-user-auth-token" "enc:the%20nonce\+1" "ok";
   reply 200 "ok";
   reply_with 200 "set-cookie" "csrfToken=abcdef; path=/" "me";
   reply 200 ""].

Definition handshake_stage1_bad : list response :=
  [reply 200 "bad";
   reply 200 "ok";
   reply_with 200 "set-cookie" "csrfToken=abcdef; path=/" "me";
   reply 200 ""].

Definition handshake_garbled : list response :=
  [reply_with 200 "x-gpgauth-user-auth-token" "not%20a%20pgp%20message" "ok";
   reply 200 "ok";
   reply_with 200 "set-cookie" "csrfToken=abcdef; path=/" "me";
   reply 200 ""].

Definition handshake_rejected : list response :=
  [reply 200 "bad";
   reply 200 "bad";
   reply_with 200 "set-cookie" "csrfToken=abcdef; path=/" "me";
   reply 302 ""].

Definition handshake_refused : list response :=
  [reply 200 "bad";
   reply 200 "bad";
   reply 403 "forbidden";
   reply 403 ""].

Definition add_bob : world :=
  facing logged_in [reply 200 "dry-run"; reply 200 "bob"; reply 200 "ok"].

Definition listing : world := facing logged_in [reply 200 "users"].
Definition group_listing : world := facing logged_in [reply 200 "groups"].

Definition host (files : string -> string -> option (result string))
    (env : list (string * string)) : world :=
  mkWorld me [] [] [] [] files env.

Definition one_file (dir name content : string)
    : string -> string -> option (result string) :=
  fun d n =>
    if (String.eqb d dir && String.eqb n name)%bool then Some (Ok content) else None.


Definition promote_alice : world :=
  facing logged_in [reply 200 "users"; reply 200 "ok"; reply 200 "ok"].

(** A second table, with a listing that has an entity without a
    username and a dry-run that lists no secret. *)
Definition stranger : json := JObj [("id", JStr "u-x")].

Definition more_table : list (string * json) :=
  [("users-broken", envelope 200 (JArr [bob; stranger; alice]));
   ("dry-run-empty", envelope 200 (JObj [("dry-run", JObj [("Secrets", JObj [])])]))]
  ++ table.

Definition toy_more : Externals := {|
  json_loads := fun s => assoc s more_table;
  unquote := percent_decode;
  keyring := list json;
  gpg_import_keys := toy_import;
  gpg_decrypt := toy_decrypt;
  gpg_encrypt := toy_encrypt
|}.

Definition facing_more (c : client) (script : list response) : @world toy_more :=
  @mkWorld toy_more c [] script [] [] (fun _ _ => None) [].

End Demo.

(** ** Properties *)

Section Properties.

Context {X : Externals} {J : CookieJar}.

(** *** Running a method step by step *)

Lemma bind_ok {A B : Type} (m : M A) (k : A -> M B) (w w1 : world) (a : A) :
  m w = (Ok a, w1) -> bind m k w = k a w1.
Proof. intros E. unfold bind. now rewrite E. Qed.

Lemma bind_raise {A B : Type} (m : M A) (k : A -> M B) (w w1 : world) (e : exn) :
  m w = (Raise e, w1) -> bind m k w = (Raise e, w1).
Proof. intros E. unfold bind. now rewrite E. Qed.

Lemma send_next (m : verb) (u : string) (b : option json) (w : world)
    (r : response) (rest : list response) :
  inbox w = r :: rest ->
  send m u b w =
    (Ok r, mkWorld (self w) (gpg w) rest
             (outbox w ++ [mkRequest m u b (session_headers (self w))])
             (console w) (file_at w) (environ w)).
Proof. intros E. unfold send. now rewrite E. Qed.

Lemma send_outbox (m : verb) (u : string) (b : option json) (w : world) :
  outbox (snd (send m u b w)) =
    outbox w ++ [mkRequest m u b (session_headers (self w))].
Proof. unfold send. now destruct (inbox w). Qed.

Lemma loads_some (s : string) (v : json) (w : world) :
  json_loads s = Some v -> loads s w = (Ok v, w).
Proof. intros E. unfold loads. now rewrite E. Qed.

(** C9, as the code has it.  Whatever the liveness check gets back, and
    also when the transport raises, [check_login] leaves the object as it
    was: the authenticated flag, the token, the user id, the session's
    headers and the cookies attribute keep their values.  The call sends
    its one GET to the server root, leaves the engine alone, and writes to
    the console exactly when the status is not 200.  The cookie jar of
    the session is not kept as it was: the response received goes through
    it. *)
Theorem check_login_frame (w : world) :
  let w' := snd (check_login w) in
  self w' = self w /\
  authenticated (self w') = authenticated (self w) /\
  token (self w') = token (self w) /\
  USER_ID (self w') = USER_ID (self w) /\
  session_headers (self w') = session_headers (self w) /\
  cookies (self w') = cookies (self w) /\
  gpg w' = gpg w /\
  outbox w' = outbox w ++
    [mkRequest GET (base_url (self w) ++ "/")%string None (session_headers (self w))] /\
  (forall j : jar,
     cookies_after check_login j w =
       match inbox w with
       | [] => j
       | r :: _ => extract_cookies j r
       end) /\
  match inbox w with
  | [] => fst (check_login w) = Raise TransportError /\ console w' = console w
  | r :: rest =>
      fst (check_login w) = Ok tt /\ inbox w' = rest /\
      console w' = console w ++
        (if status_code r =? 200 then [] else [OutStr "Falha no login"; OutResponse r])
  end.
Proof.
  destruct w as [c g inb outb con fs env].
  assert (Hjar : forall j : jar,
            cookies_after check_login j (mkWorld c g inb outb con fs env) =
              match inb with
              | [] => j
              | r :: _ => extract_cookies j r
              end).
  { intros j. unfold cookies_after, received.
    destruct inb as [|r rest]; [reflexivity|].
    replace (inbox (snd (check_login (mkWorld c g (r :: rest) outb con fs env))))
      with rest.
    - cbn [inbox List.length].
      replace (S (List.length rest) - List.length rest)%nat with 1%nat by lia.
      reflexivity.
    - unfold check_login, bind, get_self, send, emit, ret; simpl.
      now destruct (status_code r =? 200). }
  unfold check_login, bind, get_self, send; simpl.
  destruct inb as [|r rest]; simpl.
  - repeat split; try exact Hjar.
  - destruct (status_code r =? 200); simpl.
    + rewrite app_nil_r. repeat split; try exact Hjar.
    + unfold emit; simpl. rewrite <- app_assoc. repeat split; try exact Hjar.
Qed.

(** C10.  [create_group] posts to the groups endpoint a body of the name
    and a [groups_users] list of exactly one entry, the client's own
    [USER_ID] with [is_admin] true, and hands back the response it got;
    nothing of the object changes. *)
Theorem create_group_makes_creator_admin (group_name : string) (w : world) :
  let body := JObj [
    ("name", JStr group_name);
    ("groups_users", JArr [JObj [("user_id", USER_ID (self w)); ("is_admin", JBool true)]])] in
  let w' := snd (create_group group_name w) in
  outbox w' = outbox w ++
    [mkRequest POST (groups_url (self w)) (Some body) (session_headers (self w))] /\
  self w' = self w /\
  console w' = console w /\
  match inbox w with
  | [] => fst (create_group group_name w) = Raise TransportError
  | r :: rest => fst (create_group group_name w) = Ok r /\ inbox w' = rest
  end.
Proof.
  destruct w as [c g inb outb con fs env].
  unfold create_group, bind, get_self, send, ret; simpl.
  destruct inb; simpl; auto.
Qed.

(** C2.  When the dry-run answers with a status other than 200,
    [put_user_on_group] returns that very response.  The dry-run PUT is
    the only request it sent: no GET for the user's key, no PUT to
    [/groups/{id}.json]; its body has no [secrets]; the engine was not
    called; the headers and the text of the response went to the
    console. *)
Theorem put_user_on_group_aborts (group_id user_id : string) (admin : bool)
    (w : world) (r : response) (rest : list response) :
  inbox w = r :: rest ->
  status_code r <> 200 ->
  let body := JObj [
    ("id", JStr group_id);
    ("groups_users", JArr [JObj [("user_id", JStr user_id); ("is_admin", JBool admin)]])] in
  put_user_on_group group_id user_id admin w =
    (Ok r,
     mkWorld (self w) (gpg w) rest
       (outbox w ++
          [mkRequest PUT (base_url (self w) ++ "/groups/" ++ group_id ++ "/dry-run.json")%string
             (Some body) (session_headers (self w))])
       (console w ++ [OutHeaders r; OutBlank; OutStr (text r); OutBlank])
       (file_at w) (environ w)) /\
  getitem body "secrets" = Raise KeyError.
Proof.
  intros Hin Hst body. split; [|reflexivity].
  unfold put_user_on_group.
  rewrite (bind_ok _ _ w w (self w)) by reflexivity.
  rewrite (bind_ok _ _ _ _ _ (send_next _ _ _ _ _ _ Hin)).
  apply Z.eqb_neq in Hst. rewrite Hst.
  unfold bind, emit, ret, with_console; simpl.
  now rewrite <- !app_assoc.
Qed.

(** C7.  [load_config] takes the mapping when it is not empty; else the
    decoded contents of the file when there is one; else a mapping built
    from the four environment variables, each with its placeholder when
    the variable is absent.  The last case never raises. *)
Theorem load_config_precedence (config_filename config_filepath : string)
    (dict_config : list (string * json)) (w : world) :
  let run := load_config config_filename config_filepath (JObj dict_config) w in
  let configured v := (Ok tt, with_self (set_config v (self w)) w) in
  (dict_config <> [] -> run = configured (JObj dict_config)) /\
  (dict_config = [] ->
   forall content parsed,
     file_at w config_filepath config_filename = Some (Ok content) ->
     json_loads content = Some parsed ->
     run = configured parsed) /\
  (dict_config = [] ->
   file_at w config_filepath config_filename = None ->
   exists gpgbinary url key passphrase,
     run = configured (JObj [("gpgbinary", JStr gpgbinary); ("base_url", JStr url);
                             ("private_key", JStr key); ("passphrase", JStr passphrase)]) /\
     gpgbinary = match assoc "PASSBOLT_GPGBINARY" (environ w) with
                 | Some v => v | None => "gpg" end /\
     url = match assoc "PASSBOLT_BASEURL" (environ w) with
           | Some v => v | None => "https://undefined" end /\
     key = match assoc "PASSBOLT_PRIVATE_KEY" (environ w) with
           | Some v => v | None => "undefined" end /\
     passphrase = match assoc "PASSBOLT_PASSPHRASE" (environ w) with
                  | Some v => v | None => "gpg" end).
Proof.
  intros run configured. subst run configured. unfold load_config.
  repeat split.
  - intros Hne. destruct dict_config as [|kv m]; [congruence|]. reflexivity.
  - intros -> content parsed Hf Hp. simpl. rewrite Hf.
    now rewrite (bind_ok _ _ _ _ _ (loads_some _ _ _ Hp)).
  - intros -> Hf. simpl. rewrite Hf.
    do 4 eexists. split; [reflexivity|]. unfold environ_get. repeat split.
Qed.

(** *** The handshake *)

Lemma bind_inv {A B : Type} (m : M A) (k : A -> M B) (w w' : world) (b : B) :
  bind m k w = (Ok b, w') ->
  exists a w1, m w = (Ok a, w1) /\ k a w1 = (Ok b, w').
Proof.
  unfold bind. destruct (m w) as [[a|e] w1]; intros E.
  - now exists a, w1.
  - discriminate.
Qed.

Lemma console_grows_refl (w : world) : console_grows w w.
Proof. exists []. now rewrite app_nil_r. Qed.

Lemma console_grows_trans (w1 w2 w3 : world) :
  console_grows w1 w2 -> console_grows w2 w3 -> console_grows w1 w3.
Proof.
  intros [o1 E1] [o2 E2]. exists (o1 ++ o2).
  now rewrite E2, E1, app_assoc.
Qed.

Lemma bind_grows {A B : Type} (m : M A) (k : A -> M B) :
  (forall w, console_grows w (snd (m w))) ->
  (forall a w, console_grows w (snd (k a w))) ->
  forall w, console_grows w (snd (bind m k w)).
Proof.
  intros Hm Hk w. unfold bind. specialize (Hm w).
  destruct (m w) as [[a|e] w1]; simpl in *; [|assumption].
  eapply console_grows_trans; [eassumption|apply Hk].
Qed.

Lemma ret_grows {A : Type} (a : A) (w : world) : console_grows w (snd (ret a w)).
Proof. apply console_grows_refl. Qed.

Lemma raise_grows {A : Type} (e : exn) (w : world) :
  console_grows w (snd (raise (A := A) e w)).
Proof. apply console_grows_refl. Qed.

Lemma lift_grows {A : Type} (r : result A) (w : world) :
  console_grows w (snd (lift r w)).
Proof. apply console_grows_refl. Qed.

Lemma get_self_grows (w : world) : console_grows w (snd (get_self w)).
Proof. apply console_grows_refl. Qed.

Lemma update_self_grows (f : client -> client) (w : world) :
  console_grows w (snd (update_self f w)).
Proof. exists []. simpl. now rewrite app_nil_r. Qed.

Lemma emit_grows (o : output) (w : world) : console_grows w (snd (emit o w)).
Proof. now exists [o]. Qed.

Lemma call_gpg_grows {A : Type} (op : keyring -> result A * keyring) (w : world) :
  console_grows w (snd (call_gpg op w)).
Proof.
  unfold call_gpg. destruct (op (gpg w)). exists []. simpl. now rewrite app_nil_r.
Qed.

Lemma loads_grows (s : string) (w : world) : console_grows w (snd (loads s w)).
Proof. unfold loads. destruct (json_loads s); apply console_grows_refl. Qed.

Lemma send_grows (m : verb) (u : string) (b : option json) (w : world) :
  console_grows w (snd (send m u b w)).
Proof.
  unfold send. destruct (inbox w); exists []; simpl; now rewrite app_nil_r.
Qed.

Create HintDb console discriminated.
#[local] Hint Resolve ret_grows raise_grows lift_grows get_self_grows
  update_self_grows emit_grows call_gpg_grows loads_grows send_grows : console.

Ltac grows :=
  repeat (intros; first
    [ apply bind_grows
    | match goal with |- context [if ?c then _ else _] => destruct c end
    | match goal with |- context [match ?c with Some _ => _ | None => _ end] => destruct c end
    | solve [auto with console] ]).

Lemma decrypt_grows (message : json) (w : world) :
  console_grows w (snd (decrypt message w)).
Proof. revert w. unfold decrypt. grows. Qed.

Lemma stage2_grows (n : string) (w : world) :
  console_grows w (snd (stage2 n w)).
Proof. revert w. unfold stage2. grows. Qed.

Lemma get_cookie_grows (w : world) : console_grows w (snd (get_cookie w)).
Proof. revert w. unfold get_cookie. grows. Qed.

Lemma check_login_grows (w : world) : console_grows w (snd (check_login w)).
Proof. revert w. unfold check_login. grows. Qed.

#[local] Hint Resolve decrypt_grows stage2_grows get_cookie_grows
  check_login_grows : console.

(** What stage 1 does with a response whose envelope code is 200. *)
Lemma stage1_accepted (w : world) (r : response) (rest : list response)
    (decoded header code : json) :
  inbox w = r :: rest ->
  json_loads (text r) = Some decoded ->
  getitem decoded "header" = Ok header ->
  getitem header "code" = Ok code ->
  eq_int code 200 = true ->
  stage1 w =
    (match headers_get r "x-gpgauth-user-auth-token" with
     | Some h => Ok (JStr (replace "\+" " " (unquote h)))
     | None => Raise TypeError
     end,
     mkWorld (self w) (gpg w) rest
       (outbox w ++ [mkRequest POST (login_url (self w))
          (Some (JObj [("data", JObj [("gpg_auth", JObj [("keyid", FINGERPRINT (self w))])])]))
          (session_headers (self w))])
       (console w) (file_at w) (environ w)).
Proof.
  intros Hin Hl Hh Hc H200. unfold stage1.
  rewrite (bind_ok _ _ w w (self w)) by reflexivity.
  rewrite (bind_ok _ _ _ _ _ (send_next _ _ _ _ _ _ Hin)).
  rewrite (bind_ok _ _ _ _ _ (loads_some _ _ _ Hl)).
  unfold bind, lift. rewrite Hh, Hc, H200.
  now destruct (headers_get r "x-gpgauth-user-auth-token").
Qed.

(** What stage 1 does with a response whose envelope code is not 200. *)
Lemma stage1_rejected (w : world) (r : response) (rest : list response)
    (decoded header code : json) :
  inbox w = r :: rest ->
  json_loads (text r) = Some decoded ->
  getitem decoded "header" = Ok header ->
  getitem header "code" = Ok code ->
  eq_int code 200 = false ->
  stage1 w =
    (Ok JNull,
     mkWorld (self w) (gpg w) rest
       (outbox w ++ [mkRequest POST (login_url (self w))
          (Some (JObj [("data", JObj [("gpg_auth", JObj [("keyid", FINGERPRINT (self w))])])]))
          (session_headers (self w))])
       (console w ++ [OutPprint decoded]) (file_at w) (environ w)).
Proof.
  intros Hin Hl Hh Hc H200. unfold stage1.
  rewrite (bind_ok _ _ w w (self w)) by reflexivity.
  rewrite (bind_ok _ _ _ _ _ (send_next _ _ _ _ _ _ Hin)).
  rewrite (bind_ok _ _ _ _ _ (loads_some _ _ _ Hl)).
  unfold bind, lift. now rewrite Hh, Hc, H200.
Qed.

(** Stage 1 takes one response off the script, whatever it does next. *)
Lemma stage1_inbox (w : world) (r : response) (rest : list response) :
  inbox w = r :: rest -> inbox (snd (stage1 w)) = rest.
Proof.
  intros Hin. unfold stage1.
  rewrite (bind_ok _ _ w w (self w)) by reflexivity.
  rewrite (bind_ok _ _ _ _ _ (send_next _ _ _ _ _ _ Hin)).
  unfold bind, loads, lift, emit, ret, raise; simpl.
  destruct (json_loads (text r)) as [d|]; simpl; [|reflexivity].
  destruct (getitem d "header") as [h|]; simpl; [|reflexivity].
  destruct (getitem h "code") as [c|]; simpl; [|reflexivity].
  destruct (eq_int c 200); simpl; [|reflexivity].
  now destruct (headers_get r "x-gpgauth-user-auth-token").
Qed.

Lemma decrypt_inbox (message : json) (w : world) :
  inbox (snd (decrypt message w)) = inbox w.
Proof.
  unfold decrypt, bind, get_self, lift, call_gpg; simpl.
  destruct (dict_get (config (self w)) "passphrase"); simpl; [|reflexivity].
  now destruct (gpg_decrypt message a (gpg w)).
Qed.

(** Stage 2 answers with what the envelope of its response says. *)
Lemma stage2_verdict (n : string) (w w' : world) (r : response)
    (rest : list response) (b : bool) :
  inbox w = r :: rest ->
  stage2 n w = (Ok b, w') ->
  b = envelope_ok r /\ self w' = self w.
Proof.
  intros Hin. unfold stage2.
  rewrite (bind_ok _ _ w w (self w)) by reflexivity.
  rewrite (bind_ok _ _ _ _ _ (send_next _ _ _ _ _ _ Hin)).
  unfold envelope_ok, bind, loads, lift, ret, raise; simpl.
  destruct (json_loads (text r)) as [d|]; simpl; [|discriminate].
  destruct (getitem d "header") as [h|]; simpl; [|discriminate].
  destruct (getitem h "code") as [c|]; simpl; [|discriminate].
  destruct (eq_int c 200); intros E; inversion E; subst; now split.
Qed.

(** A session materialization that completes does not touch the flag. *)
Lemma get_cookie_authenticated (w w' : world) :
  get_cookie w = (Ok tt, w') ->
  authenticated (self w') = authenticated (self w).
Proof.
  unfold get_cookie, bind, get_self, send, loads, lift, update_self, raise; simpl.
  destruct (inbox w) as [|r rest]; simpl; [discriminate|].
  destruct (json_loads (text r)) as [d|]; simpl; [|discriminate].
  destruct (getitem d "body") as [bd|]; simpl; [|discriminate].
  destruct (getitem bd "id") as [i|]; simpl; [|discriminate].
  destruct (headers_get r "set-cookie"); simpl; [|discriminate].
  intros E; inversion E; subst; reflexivity.
Qed.

Lemma check_login_self (w : world) : self (snd (check_login w)) = self w.
Proof.
  unfold check_login, bind, get_self, send, emit, ret; simpl.
  destruct (inbox w) as [|r rest]; simpl; [reflexivity|].
  now destruct (status_code r =? 200).
Qed.

(** A completed [login], cut at its steps. *)
Lemma login_steps (w w' : world) :
  login w = (Ok tt, w') ->
  exists m w1 n w2 a w3 w4,
    stage1 w = (Ok m, w1) /\
    decrypt m (with_self (set_pgp_message m (self w1)) w1) = (Ok n, w2) /\
    stage2 (str n) (with_self (set_nonce (Some n) (self w2)) w2) = (Ok a, w3) /\
    get_cookie (with_self (set_authenticated a (self w3)) w3) = (Ok tt, w4) /\
    check_login w4 = (Ok tt, w').
Proof.
  unfold login. intros H.
  apply bind_inv in H as (m & w1 & H1 & H).
  apply bind_inv in H as ([] & ? & Hu1 & H). inversion Hu1; subst; clear Hu1.
  apply bind_inv in H as (c & ? & Hg & H). inversion Hg; subst; clear Hg.
  apply bind_inv in H as (n & w2 & H2 & H).
  apply bind_inv in H as ([] & ? & Hu2 & H). inversion Hu2; subst; clear Hu2.
  apply bind_inv in H as (a & w3 & H3 & H).
  apply bind_inv in H as ([] & ? & Hu3 & H). inversion Hu3; subst; clear Hu3.
  apply bind_inv in H as ([] & w4 & H4 & H).
  exists m, w1, n, w2, a, w3, w4. simpl in H2. auto.
Qed.

(** The flag a completed [login] leaves is the verdict of stage 2. *)
Lemma login_flag (w w' : world) (r1 r2 : response) (rest : list response) :
  inbox w = r1 :: r2 :: rest ->
  login w = (Ok tt, w') ->
  authenticated (self w') = envelope_ok r2.
Proof.
  intros Hin H.
  apply login_steps in H as (m & w1 & n & w2 & a & w3 & w4 & H1 & H2 & H3 & H4 & H5).
  pose proof (stage1_inbox _ _ _ Hin) as I1. rewrite H1 in I1. simpl in I1.
  pose proof (decrypt_inbox m (with_self (set_pgp_message m (self w1)) w1)) as I2.
  rewrite H2 in I2. simpl in I2. rewrite I1 in I2.
  destruct (stage2_verdict _ (with_self (set_nonce (Some n) (self w2)) w2)
              _ r2 rest _ I2 H3) as [-> _].
  apply get_cookie_authenticated in H4. simpl in H4.
  pose proof (check_login_self w4) as S5. rewrite H5 in S5. simpl in S5.
  now rewrite S5.
Qed.

(** C1, as the code has it.  After a [login] that completes, the
    authenticated flag is true if and only if the envelope of the stage-2
    response reports code 200.  Neither the stage-1 code nor the outcome
    of the decryption enters into it. *)
Theorem login_authenticated_iff_stage2 (w w' : world) (r1 r2 : response)
    (rest : list response) :
  inbox w = r1 :: r2 :: rest ->
  login w = (Ok tt, w') ->
  authenticated (self w') = true <-> envelope_ok r2 = true.
Proof.
  intros Hin H. now rewrite (login_flag _ _ _ _ _ Hin H).
Qed.

(** [login] once stage 1 has returned: the message is stored, and the
    decryption comes next, whatever the message is. *)
Lemma login_after_stage1 (w w1 : world) (m : json) :
  stage1 w = (Ok m, w1) ->
  login w =
    (n <- decrypt m ;;
     update_self (set_nonce (Some n)) ;;
     a <- stage2 (str n) ;;
     update_self (set_authenticated a) ;;
     get_cookie ;;
     check_login) (with_self (set_pgp_message m (self w1)) w1).
Proof. intros H. unfold login. now rewrite (bind_ok _ _ _ _ _ H). Qed.

Lemma decrypt_run {A : Type} (m passphrase : json) (w : world)
    (r : result crypt) (g1 : keyring) (k : crypt -> M A) :
  dict_get (config (self w)) "passphrase" = Ok passphrase ->
  gpg_decrypt m passphrase (gpg w) = (r, g1) ->
  bind (decrypt m) k w =
    match r with
    | Ok n => k n (with_gpg g1 w)
    | Raise e => (Raise e, with_gpg g1 w)
    end.
Proof.
  intros Hp Hd. unfold decrypt, bind, get_self, lift, call_gpg; simpl.
  rewrite Hp; simpl. rewrite Hd. now destruct r.
Qed.

Lemma outbox_grows_refl (w : world) : outbox_grows w w.
Proof. exists []. now rewrite app_nil_r. Qed.

Lemma outbox_grows_trans (w1 w2 w3 : world) :
  outbox_grows w1 w2 -> outbox_grows w2 w3 -> outbox_grows w1 w3.
Proof.
  intros [o1 E1] [o2 E2]. exists (o1 ++ o2).
  now rewrite E2, E1, app_assoc.
Qed.

Lemma bind_sends {A B : Type} (m : M A) (k : A -> M B) :
  (forall w, outbox_grows w (snd (m w))) ->
  (forall a w, outbox_grows w (snd (k a w))) ->
  forall w, outbox_grows w (snd (bind m k w)).
Proof.
  intros Hm Hk w. unfold bind. specialize (Hm w).
  destruct (m w) as [[a|e] w1]; simpl in *; [|assumption].
  eapply outbox_grows_trans; [eassumption|apply Hk].
Qed.

(** What follows a step only adds to what the step has sent. *)
Lemma bind_sends_after {A B : Type} (m : M A) (k : A -> M B) :
  (forall a w, outbox_grows w (snd (k a w))) ->
  forall w, outbox_grows (snd (m w)) (snd (bind m k w)).
Proof.
  intros Hk w. unfold bind.
  destruct (m w) as [[a|e] w1]; simpl; [apply Hk|apply outbox_grows_refl].
Qed.

Lemma ret_sends {A : Type} (a : A) (w : world) : outbox_grows w (snd (ret a w)).
Proof. apply outbox_grows_refl. Qed.

Lemma raise_sends {A : Type} (e : exn) (w : world) :
  outbox_grows w (snd (raise (A := A) e w)).
Proof. apply outbox_grows_refl. Qed.

Lemma lift_sends {A : Type} (r : result A) (w : world) :
  outbox_grows w (snd (lift r w)).
Proof. apply outbox_grows_refl. Qed.

Lemma get_self_sends (w : world) : outbox_grows w (snd (get_self w)).
Proof. apply outbox_grows_refl. Qed.

Lemma update_self_sends (f : client -> client) (w : world) :
  outbox_grows w (snd (update_self f w)).
Proof. exists []. simpl. now rewrite app_nil_r. Qed.

Lemma emit_sends (o : output) (w : world) : outbox_grows w (snd (emit o w)).
Proof. exists []. simpl. now rewrite app_nil_r. Qed.

Lemma loads_sends (s : string) (w : world) : outbox_grows w (snd (loads s w)).
Proof. unfold loads. destruct (json_loads s); apply outbox_grows_refl. Qed.

Lemma send_sends (m : verb) (u : string) (b : option json) (w : world) :
  outbox_grows w (snd (send m u b w)).
Proof. unfold send. destruct (inbox w); now eexists. Qed.

Create HintDb outbox discriminated.
#[local] Hint Resolve ret_sends raise_sends lift_sends get_self_sends
  update_self_sends emit_sends loads_sends send_sends : outbox.

Ltac sends :=
  repeat (intros; first
    [ apply bind_sends
    | match goal with |- context [if ?c then _ else _] => destruct c end
    | match goal with |- context [match ?c with Some _ => _ | None => _ end] => destruct c end
    | solve [auto with outbox] ]).

Lemma get_cookie_sends (w : world) : outbox_grows w (snd (get_cookie w)).
Proof. revert w. unfold get_cookie. sends. Qed.

Lemma check_login_sends (w : world) : outbox_grows w (snd (check_login w)).
Proof. revert w. unfold check_login. sends. Qed.

#[local] Hint Resolve get_cookie_sends check_login_sends : outbox.

(** Stage 2 sends its one request, whatever comes back. *)
Lemma stage2_outbox (n : string) (w : world) :
  outbox (snd (stage2 n w)) = outbox w ++
    [mkRequest POST (login_url (self w))
       (Some (JObj [("data", JObj [("gpg_auth",
          JObj [("keyid", FINGERPRINT (self w)); ("user_token_result", JStr n)])])]))
       (session_headers (self w))].
Proof.
  destruct w as [c g inb outb con fs env].
  unfold stage2, bind, get_self, send, loads, lift, ret; simpl.
  destruct inb as [|r rest]; simpl; [reflexivity|].
  destruct (json_loads (text r)) as [d|]; simpl; [|reflexivity].
  destruct (getitem d "header") as [h|]; simpl; [|reflexivity].
  destruct (getitem h "code") as [x|]; simpl; [|reflexivity].
  now destruct (eq_int x 200).
Qed.

(** C6, as the code has it.  When the stage-1 envelope code is not 200,
    stage 1 does not raise: it prints the decoded response and returns
    [None].  [login] does not stop there: it hands that [None] to the
    engine for decryption with the configured passphrase; when the engine
    raises, [login] ends with that exception, one request sent; when the
    engine returns, [login] sends the stage-2 request with the text of
    what it returned as [user_token_result].  Whatever it does next, the
    console keeps the printed response first among the new lines; and if
    it completes and the stage-2 envelope does not report 200, the client
    is left unauthenticated. *)
Theorem login_after_stage1_rejection (w : world) (r1 : response)
    (rest : list response) (decoded header code : json) :
  inbox w = r1 :: rest ->
  json_loads (text r1) = Some decoded ->
  getitem decoded "header" = Ok header ->
  getitem header "code" = Ok code ->
  eq_int code 200 = false ->
  let stage1_post :=
    mkRequest POST (login_url (self w))
      (Some (JObj [("data", JObj [("gpg_auth", JObj [("keyid", FINGERPRINT (self w))])])]))
      (session_headers (self w)) in
  let stage2_post n :=
    mkRequest POST (login_url (self w))
      (Some (JObj [("data", JObj [("gpg_auth",
         JObj [("keyid", FINGERPRINT (self w)); ("user_token_result", JStr (str n))])])]))
      (session_headers (self w)) in
  (exists w1, stage1 w = (Ok JNull, w1) /\
              console w1 = console w ++ [OutPprint decoded]) /\
  (exists out, console (snd (login w)) = console w ++ OutPprint decoded :: out) /\
  (forall w' r2 rest',
     login w = (Ok tt, w') -> rest = r2 :: rest' -> envelope_ok r2 = false ->
     authenticated (self w') = false) /\
  (forall passphrase e g1,
     dict_get (config (self w)) "passphrase" = Ok passphrase ->
     gpg_decrypt JNull passphrase (gpg w) = (Raise e, g1) ->
     fst (login w) = Raise e /\
     gpg (snd (login w)) = g1 /\
     pgp_message (self (snd (login w))) = JNull /\
     outbox (snd (login w)) = outbox w ++ [stage1_post]) /\
  (forall passphrase n g1,
     dict_get (config (self w)) "passphrase" = Ok passphrase ->
     gpg_decrypt JNull passphrase (gpg w) = (Ok n, g1) ->
     exists more,
       outbox (snd (login w)) = outbox w ++ stage1_post :: stage2_post n :: more).
Proof.
  intros Hin Hl Hh Hc H200 stage1_post stage2_post.
  pose proof (stage1_rejected _ _ _ _ _ _ Hin Hl Hh Hc H200) as H1.
  split; [|split; [|split; [|split]]].
  - eexists. split; [exact H1|reflexivity].
  - unfold login. rewrite (bind_ok _ _ _ _ _ H1).
    match goal with
    | |- exists out, console (snd (?k ?w1)) = _ =>
        assert (G : forall v, console_grows v (snd (k v))) by grows;
        destruct (G w1) as [out E]
    end.
    exists out. rewrite E. simpl. now rewrite <- app_assoc.
  - intros w' r2 rest' H -> Hbad.
    now rewrite (login_flag _ _ _ _ _ Hin H).
  - intros passphrase e g1 Hp Hd.
    rewrite (login_after_stage1 _ _ _ H1).
    rewrite (decrypt_run JNull passphrase _ (Raise e) g1); [|exact Hp|exact Hd].
    repeat split.
  - intros passphrase n g1 Hp Hd.
    rewrite (login_after_stage1 _ _ _ H1).
    rewrite (decrypt_run JNull passphrase _ (Ok n) g1); [|exact Hp|exact Hd].
    unfold bind at 1; simpl.
    match goal with
    | |- exists more, outbox (snd (bind (stage2 ?s) ?k ?v)) = _ =>
        assert (G : outbox_grows (snd (stage2 s v)) (snd (bind (stage2 s) k v)))
          by (apply bind_sends_after; sends);
        destruct G as [more E]; rewrite E, (stage2_outbox s v)
    end.
    exists more. simpl. now rewrite <- !app_assoc.
Qed.

(** *** The challenge token *)

Lemma replace_escaped_plus_hit (s : string) :
  replace "\+" " " (String "\" (String "+" s)) = String " " (replace "\+" " " s).
Proof. reflexivity. Qed.

Lemma replace_escaped_plus_miss (c : ascii) (s : string) :
  startswith (String c s) "\+" = false ->
  replace "\+" " " (String c s) = String c (replace "\+" " " s).
Proof. intros H. unfold replace. cbn [replace_from]. now rewrite H. Qed.

Lemma replace_without_backslash (s : string) :
  (forall c, In c (list_ascii_of_string s) -> c <> "\"%char) ->
  replace "\+" " " s = s.
Proof.
  induction s as [|c s IH]; intros H; [reflexivity|].
  rewrite replace_escaped_plus_miss.
  - f_equal. apply IH. intros c' Hc'. apply H. now right.
  - cbn [startswith]. destruct (Ascii.eqb_spec "\" c) as [E|]; [|reflexivity].
    exfalso. apply (H c); [now left|now symmetry].
Qed.

(** C4, as the code has it.  When the stage-1 envelope code is 200,
    [stage1] returns the [x-gpgauth-user-auth-token] header URL-decoded
    and with every occurrence of the two characters backslash, plus
    replaced by a space.  It writes nothing to the console and changes
    nothing of the object. *)
Theorem stage1_returns_token (w : world) (r : response) (rest : list response)
    (decoded header code : json) (h : string) :
  inbox w = r :: rest ->
  json_loads (text r) = Some decoded ->
  getitem decoded "header" = Ok header ->
  getitem header "code" = Ok code ->
  eq_int code 200 = true ->
  headers_get r "x-gpgauth-user-auth-token" = Some h ->
  fst (stage1 w) = Ok (JStr (replace "\+" " " (unquote h))) /\
  self (snd (stage1 w)) = self w /\
  console (snd (stage1 w)) = console w.
Proof.
  intros Hin Hl Hh Hc H200 Htok.
  rewrite (stage1_accepted _ _ _ _ _ _ Hin Hl Hh Hc H200), Htok.
  repeat split.
Qed.

(** *** Lookups *)

Lemma get_users_body (w : world) (r : response) (rest : list response)
    (decoded body : json) :
  inbox w = r :: rest ->
  json_loads (text r) = Some decoded ->
  getitem decoded "body" = Ok body ->
  get_users w =
    (Ok body,
     mkWorld (self w) (gpg w) rest
       (outbox w ++ [mkRequest GET (users_url (self w)) None (session_headers (self w))])
       (console w) (file_at w) (environ w)).
Proof.
  intros Hin Hl Hb. unfold get_users.
  rewrite (bind_ok _ _ w w (self w)) by reflexivity.
  rewrite (bind_ok _ _ _ _ _ (send_next _ _ _ _ _ _ Hin)).
  rewrite (bind_ok _ _ _ _ _ (loads_some _ _ _ Hl)).
  unfold lift. now rewrite Hb.
Qed.

Lemma get_groups_body (w : world) (r : response) (rest : list response)
    (decoded body : json) :
  inbox w = r :: rest ->
  json_loads (text r) = Some decoded ->
  getitem decoded "body" = Ok body ->
  get_groups w =
    (Ok body,
     mkWorld (self w) (gpg w) rest
       (outbox w ++ [mkRequest GET (groups_url (self w)) None (session_headers (self w))])
       (console w) (file_at w) (environ w)).
Proof.
  intros Hin Hl Hb. unfold get_groups.
  rewrite (bind_ok _ _ w w (self w)) by reflexivity.
  rewrite (bind_ok _ _ _ _ _ (send_next _ _ _ _ _ _ Hin)).
  rewrite (bind_ok _ _ _ _ _ (loads_some _ _ _ Hl)).
  unfold lift. now rewrite Hb.
Qed.

Lemma field_is_has_field (field wanted : string) (e : json) :
  field_is field wanted e = true -> has_field field e = true.
Proof. unfold field_is, has_field. now destruct (getitem e field). Qed.

(** The loop on a listing whose entities all have the field. *)
Lemma scan_find (field wanted : string) (items : list json) :
  Forall (fun e => has_field field e = true) items ->
  scan field wanted items =
    Ok (match find (field_is field wanted) items with Some e => e | None => JNull end).
Proof.
  induction 1 as [|e items He _ IH]; [reflexivity|].
  cbn [scan find]. unfold has_field in He. unfold field_is at 1.
  destruct (getitem e field) as [v|]; [|discriminate].
  now destruct (eq_str v wanted).
Qed.

Lemma scan_no_match (field wanted : string) (items : list json) :
  Forall (fun e => has_field field e = true) items ->
  (forall e, In e items -> field_is field wanted e = false) ->
  scan field wanted items = Ok JNull.
Proof.
  intros Hf Hno. rewrite (scan_find _ _ _ Hf).
  destruct (find (field_is field wanted) items) as [e|] eqn:E; [|reflexivity].
  apply find_some in E as [Hin Hyes]. rewrite (Hno e Hin) in Hyes. discriminate.
Qed.

Lemma scan_first_match (field wanted : string) (before after : list json) (e : json) :
  Forall (fun e' => has_field field e' = true) before ->
  (forall e', In e' before -> field_is field wanted e' = false) ->
  field_is field wanted e = true ->
  scan field wanted (before ++ e :: after) = Ok e.
Proof.
  intros Hf Hno Hyes. induction before as [|b before IH]; cbn [app scan].
  - unfold field_is in Hyes. destruct (getitem e field) as [v|]; [|discriminate].
    now rewrite Hyes.
  - inversion Hf as [|? ? Hb Hf']; subst.
    pose proof (Hno b (or_introl eq_refl)) as Hb'.
    unfold has_field in Hb. unfold field_is in Hb'.
    destruct (getitem b field) as [v|]; [|discriminate].
    rewrite Hb'. apply IH; [assumption|]. intros e' He'. apply Hno. now right.
Qed.

Lemma Forall_app_left {A : Type} (P : A -> Prop) (l1 l2 : list A) :
  Forall P (l1 ++ l2) -> Forall P l1.
Proof. intros H. now apply Forall_app in H. Qed.

(** C5.  On a user list (a group list) whose entities carry the field that
    is compared, each of the four lookups returns [None] when no entity
    has the wanted value and the first entity in list order that has it
    otherwise. *)
Theorem lookups_first_match (w : world) (r : response) (rest : list response)
    (decoded : json) (items : list json) :
  inbox w = r :: rest ->
  json_loads (text r) = Some decoded ->
  getitem decoded "body" = Ok (JArr items) ->
  (Forall (fun e => has_field "username" e = true) items ->
   first_match_wins get_user_by_email "username" items w) /\
  (Forall (fun e => has_field "id" e = true) items ->
   first_match_wins get_user_by_id "id" items w /\
   first_match_wins get_group_by_id "id" items w) /\
  (Forall (fun e => has_field "name" e = true) items ->
   first_match_wins get_group_by_name "name" items w).
Proof.
  intros Hin Hl Hb.
  pose proof (get_users_body _ _ _ _ _ Hin Hl Hb) as Hu.
  pose proof (get_groups_body _ _ _ _ _ Hin Hl Hb) as Hg.
  assert (U : forall field wanted,
             fst ((users <- get_users ;; items <- lift (iter users) ;;
                   lift (scan field wanted items)) w) = scan field wanted items).
  { intros. now rewrite (bind_ok _ _ _ _ _ Hu). }
  assert (G : forall field wanted,
             fst ((groups <- get_groups ;; items <- lift (iter groups) ;;
                   lift (scan field wanted items)) w) = scan field wanted items).
  { intros. now rewrite (bind_ok _ _ _ _ _ Hg). }
  assert (W : forall (op : string -> M json) field,
             (forall wanted, fst (op wanted w) = scan field wanted items) ->
             Forall (fun e => has_field field e = true) items ->
             first_match_wins op field items w).
  { intros op field Hop Hf wanted. rewrite Hop. split.
    - now apply scan_no_match.
    - intros before e after -> Hno Hyes.
      apply scan_first_match; [|assumption..].
      now apply Forall_app_left in Hf. }
  split; [|split].
  - intros Hf. exact (W get_user_by_email _ (U "username") Hf).
  - intros Hf. split.
    + exact (W get_user_by_id _ (U "id") Hf).
    + exact (W get_group_by_id _ (G "id") Hf).
  - intros Hf. exact (W get_group_by_name _ (G "name") Hf).
Qed.

(** *** Group membership *)

Lemma scan_membership_find (group_id : string) (memberships : list json) :
  Forall (fun m => has_field "group_id" m = true) memberships ->
  Forall (fun m => has_field "id" m = true) memberships ->
  scan_membership group_id memberships = Ok (membership_record_id group_id memberships).
Proof.
  unfold membership_record_id.
  induction 1 as [|m ms Hg _ IH]; intros Hid; [reflexivity|].
  inversion Hid as [|? ? Hi Hid']; subst.
  cbn [scan_membership find]. unfold has_field in Hg, Hi. unfold field_is at 1.
  destruct (getitem m "group_id") as [g|]; [|discriminate].
  destruct (eq_str g group_id); [|now apply IH].
  now destruct (getitem m "id").
Qed.

Lemma get_group_user_id_found (group_id user_id : string) (w : world)
    (r : response) (rest : list response) (decoded user : json)
    (users memberships : list json) :
  inbox w = r :: rest ->
  json_loads (text r) = Some decoded ->
  getitem decoded "body" = Ok (JArr users) ->
  Forall (fun e => has_field "id" e = true) users ->
  find (field_is "id" user_id) users = Some user ->
  getitem user "groups_users" = Ok (JArr memberships) ->
  Forall (fun m => has_field "group_id" m = true) memberships ->
  Forall (fun m => has_field "id" m = true) memberships ->
  get_group_user_id group_id user_id w =
    (Ok (membership_record_id group_id memberships),
     mkWorld (self w) (gpg w) rest
       (outbox w ++ [mkRequest GET (users_url (self w)) None (session_headers (self w))])
       (console w) (file_at w) (environ w)).
Proof.
  intros Hin Hl Hb Hus Hu Hms Hg Hi.
  unfold get_group_user_id, get_user_by_id. unfold bind at 1.
  rewrite (bind_ok _ _ _ _ _ (get_users_body _ _ _ _ _ Hin Hl Hb)).
  unfold bind, lift; simpl.
  rewrite (scan_find _ _ _ Hus), Hu, Hms; simpl.
  now rewrite (scan_membership_find _ _ Hg Hi).
Qed.

(** C8.  Once [get_group_user_id] has returned a record id,
    [update_user_to_group_admin] sends the dry-run PUT with a body of the
    group id and one [groups_users] entry, that id with [is_admin] true; on
    a 200 dry-run it sends the commit PUT with the same body, otherwise it
    returns the dry-run response.  The body has no [secrets].  When the
    lookup raises, no PUT is sent.  And the record id is the one found by
    scanning the memberships of the user, in the listing, for the group:
    the id of the first membership whose [group_id] is the group, or
    [None] when there is none. *)
Theorem update_user_to_group_admin_forwards_record (group_id user_id : string)
    (w : world) :
  match get_group_user_id group_id user_id w with
  | (Raise e, w1) =>
      update_user_to_group_admin group_id user_id w = (Raise e, w1)
  | (Ok record_id, w1) =>
      let body := JObj [
        ("id", JStr group_id);
        ("groups_users", JArr [JObj [("id", record_id); ("is_admin", JBool true)]])] in
      let dry_run :=
        mkRequest PUT (base_url (self w1) ++ "/groups/" ++ group_id ++ "/dry-run.json")%string
          (Some body) (session_headers (self w1)) in
      let commit :=
        mkRequest PUT (base_url (self w1) ++ "/groups/" ++ group_id ++ ".json")%string
          (Some body) (session_headers (self w1)) in
      let run := update_user_to_group_admin group_id user_id w in
      getitem body "secrets" = Raise KeyError /\
      match inbox w1 with
      | [] =>
          fst run = Raise TransportError /\
          outbox (snd run) = outbox w1 ++ [dry_run]
      | d :: rest =>
          if status_code d =? 200 then
            outbox (snd run) = outbox w1 ++ [dry_run; commit] /\
            fst run = match rest with c :: _ => Ok c | [] => Raise TransportError end
          else
            outbox (snd run) = outbox w1 ++ [dry_run] /\
            fst run = Ok d
      end
  end /\
  forall (r : response) (rest : list response) (decoded user : json)
         (users memberships : list json),
    inbox w = r :: rest ->
    json_loads (text r) = Some decoded ->
    getitem decoded "body" = Ok (JArr users) ->
    Forall (fun e => has_field "id" e = true) users ->
    find (field_is "id" user_id) users = Some user ->
    getitem user "groups_users" = Ok (JArr memberships) ->
    Forall (fun m => has_field "group_id" m = true) memberships ->
    Forall (fun m => has_field "id" m = true) memberships ->
    get_group_user_id group_id user_id w =
      (Ok (membership_record_id group_id memberships),
       mkWorld (self w) (gpg w) rest
         (outbox w ++ [mkRequest GET (users_url (self w)) None (session_headers (self w))])
         (console w) (file_at w) (environ w)).
Proof.
  split; [|intros r rest decoded user users memberships Hin Hl Hb Hus Hu Hms Hg Hi;
            exact (get_group_user_id_found group_id user_id w r rest decoded user
                     users memberships Hin Hl Hb Hus Hu Hms Hg Hi)].
  unfold update_user_to_group_admin.
  destruct (get_group_user_id group_id user_id w) as [[record_id|e] w1] eqn:E;
    [|exact (bind_raise _ _ _ _ _ E)].
  split; [reflexivity|].
  rewrite (bind_ok _ _ _ _ _ E).
  unfold bind, get_self, send, emit, ret; simpl.
  destruct (inbox w1) as [|d rest]; simpl; [now split|].
  destruct (status_code d =? 200); simpl.
  - destruct rest; simpl; now rewrite <- app_assoc.
  - now split.
Qed.

Lemma reencrypted_length (cfg : json) (user_id : string) (user_key : json)
    (g g' : keyring) (secrets entries : list json) :
  reencrypted cfg user_id user_key g secrets entries g' ->
  List.length entries = List.length secrets.
Proof. induction 1; simpl; congruence. Qed.

(** The loop of [put_user_on_group] yields the entries of the relation,
    after those it was given. *)
Lemma reencrypt_run (user_id : string) (user_key : json) (c : client)
    (g g' : keyring) (secrets entries : list json) :
  reencrypted (config c) user_id user_key g secrets entries g' ->
  forall acc inb outb con fs env,
    reencrypt user_id user_key secrets acc (mkWorld c g inb outb con fs env) =
      (Ok (acc ++ entries), mkWorld c g' inb outb con fs env).
Proof.
  induction 1 as [g|g g1 g2 g3 g' secret rest entries inner first payload passphrase
                     armored fingerprint resource_id plain cipher
                     Hs H0 Hd Hp Hdec Ha Himp Hf Henc Hr _ IH]; intros.
  - cbn [reencrypt]. unfold ret. now rewrite app_nil_r.
  - cbn [reencrypt].
    unfold secret_field, decrypt, encrypt, bind, lift, get_self, call_gpg; simpl.
    rewrite Hs; simpl. rewrite H0; simpl. rewrite Hd; simpl.
    rewrite Hp; simpl. rewrite Hdec; simpl.
    rewrite Ha; simpl. rewrite Himp; simpl. rewrite Hf; simpl.
    rewrite Henc; simpl. rewrite Hr; simpl.
    unfold with_gpg; simpl. rewrite IH. now rewrite <- app_assoc.
Qed.

(** And a loop that ends normally went through the steps of the relation. *)
Lemma reencrypt_sound (user_id : string) (user_key : json) (c : client)
    (secrets : list json) :
  forall acc g inb outb con fs env l w',
    reencrypt user_id user_key secrets acc (mkWorld c g inb outb con fs env) = (Ok l, w') ->
    exists entries g',
      l = acc ++ entries /\
      w' = mkWorld c g' inb outb con fs env /\
      reencrypted (config c) user_id user_key g secrets entries g'.
Proof.
  induction secrets as [|secret rest IH]; intros acc g inb outb con fs env l w' H.
  - cbn [reencrypt] in H. inversion H; subst.
    exists [], g. rewrite app_nil_r. repeat split. constructor.
  - cbn [reencrypt] in H.
    unfold secret_field, decrypt, encrypt, bind, lift, get_self, call_gpg in H;
      simpl in H.
    destruct (getitem secret "Secret") as [inner|] eqn:Hs; simpl in H; [|discriminate].
    destruct (getitem0 inner) as [first|] eqn:H0; simpl in H; [|discriminate].
    destruct (getitem first "data") as [payload|] eqn:Hd; simpl in H; [|discriminate].
    destruct (dict_get (config c) "passphrase") as [passphrase|] eqn:Hp;
      simpl in H; [|discriminate].
    destruct (gpg_decrypt payload passphrase g) as [[plain|] g1] eqn:Hdec;
      simpl in H; [|discriminate].
    destruct (getitem user_key "armored_key") as [armored|] eqn:Ha;
      simpl in H; [|discriminate].
    destruct (gpg_import_keys armored g1) as [[[]|] g2] eqn:Himp;
      simpl in H; [|discriminate].
    destruct (getitem user_key "fingerprint") as [fingerprint|] eqn:Hf;
      simpl in H; [|discriminate].
    destruct (gpg_encrypt (str plain) fingerprint true g2) as [[cipher|] g3] eqn:Henc;
      simpl in H; [|discriminate].
    destruct (getitem first "resource_id") as [resource_id|] eqn:Hr;
      simpl in H; [|discriminate].
    apply IH in H as (entries & g' & -> & -> & Hre).
    eexists (_ :: entries), g'. rewrite <- app_assoc. repeat split.
    econstructor; eassumption.
Qed.

(** C3.  After a 200 dry-run, [put_user_on_group] ends normally exactly
    when the user's key could be fetched from [/users/{user_id}.json] and
    every secret of the dry-run could be re-encrypted.  The commit PUT
    then carries as [secrets] exactly the entries of that re-encryption,
    one per secret and in the order of the dry-run: the resource id of the
    secret, the target user, and the secret decrypted by the client and
    encrypted to the key fetched.  The response of the commit is what the
    call returns. *)
Theorem put_user_on_group_reencrypts (group_id user_id : string) (admin : bool)
    (w w' : world) (dry answer : response) (script : list response) :
  inbox w = dry :: script ->
  status_code dry = 200 ->
  put_user_on_group group_id user_id admin w = (Ok answer, w') <->
  exists (usr : response) (rest : list response)
         (decoded body dry_run listed udecoded user user_key : json)
         (secrets entries : list json) (g' : keyring),
    script = usr :: answer :: rest /\
    json_loads (text dry) = Some decoded /\
    getitem decoded "body" = Ok body /\
    getitem body "dry-run" = Ok dry_run /\
    getitem dry_run "Secrets" = Ok listed /\
    iter listed = Ok secrets /\
    json_loads (text usr) = Some udecoded /\
    getitem udecoded "body" = Ok user /\
    getitem user "gpgkey" = Ok user_key /\
    reencrypted (config (self w)) user_id user_key (gpg w) secrets entries g' /\
    List.length entries = List.length secrets /\
    let membership :=
      JArr [JObj [("user_id", JStr user_id); ("is_admin", JBool admin)]] in
    w' = mkWorld (self w) g' rest
           (outbox w ++ [
              mkRequest PUT
                (base_url (self w) ++ "/groups/" ++ group_id ++ "/dry-run.json")%string
                (Some (JObj [("id", JStr group_id); ("groups_users", membership)]))
                (session_headers (self w));
              mkRequest GET
                (base_url (self w) ++ "/users/" ++ user_id ++ ".json")%string
                None (session_headers (self w));
              mkRequest PUT
                (base_url (self w) ++ "/groups/" ++ group_id ++ ".json")%string
                (Some (JObj [("id", JStr group_id); ("groups_users", membership);
                             ("secrets", JArr entries)]))
                (session_headers (self w))])
           (console w) (file_at w) (environ w).
Proof.
  intros Hin Hst.
  destruct w as [c g inb outb con fs env]; simpl in *. subst inb.
  unfold put_user_on_group, get_user_public_key, bind, get_self, send, loads, lift, ret;
    simpl.
  rewrite Hst; simpl. split.
  - intros H.
    destruct script as [|usr script]; simpl in H; [discriminate|].
    destruct (json_loads (text usr)) as [udecoded|] eqn:Hul; simpl in H; [|discriminate].
    destruct (getitem udecoded "body") as [user|] eqn:Hub; simpl in H; [|discriminate].
    destruct (getitem user "gpgkey") as [user_key|] eqn:Hk; simpl in H; [|discriminate].
    destruct (json_loads (text dry)) as [decoded|] eqn:Hl; simpl in H; [|discriminate].
    destruct (getitem decoded "body") as [body|] eqn:Hb; simpl in H; [|discriminate].
    destruct (getitem body "dry-run") as [dry_run|] eqn:Hd; simpl in H; [|discriminate].
    destruct (getitem dry_run "Secrets") as [listed|] eqn:Hs; simpl in H; [|discriminate].
    destruct (iter listed) as [secrets|] eqn:Hit; simpl in H; [|discriminate].
    destruct (reencrypt user_id user_key secrets [] _) as [[l|] w1] eqn:Hrun;
      simpl in H; [|discriminate].
    apply reencrypt_sound in Hrun as (entries & g' & -> & -> & Hre). simpl in H.
    destruct script as [|commit rest]; simpl in H; [discriminate|].
    inversion H; subst; clear H.
    exists usr, rest, decoded, body, dry_run, listed, udecoded, user, user_key,
      secrets, entries, g'.
    repeat (split; [first [reflexivity | assumption]|]).
    split; [exact (reencrypted_length _ _ _ _ _ _ _ Hre)|].
    now rewrite <- !app_assoc.
  - intros (usr & rest & decoded & body & dry_run & listed & udecoded & user & user_key
            & secrets & entries & g' & -> & Hl & Hb & Hd & Hs & Hit & Hul & Hub & Hk
            & Hre & _ & ->).
    simpl. rewrite Hul; simpl. rewrite Hub; simpl. rewrite Hk; simpl.
    rewrite Hl; simpl. rewrite Hb; simpl. rewrite Hd; simpl. rewrite Hs; simpl.
    rewrite Hit; simpl.
    rewrite (reencrypt_run _ _ _ _ _ _ _ Hre); simpl.
    now rewrite <- !app_assoc.
Qed.

End Properties.

(** ** Further properties of the methods *)

Section MoreProperties.

Context {X : Externals}.

(** *** Reads *)

Ltac run_read :=
  match goal with
  | w : world |- _ => destruct w as [c g inb outb con fs env]
  end;
  unfold fetches_once, bind, get_self, send, loads, lift, ret; simpl;
  repeat match goal with
    | |- context [match ?x with _ => _ end] =>
        match x with
        | context [match _ with _ => _ end] => fail 1
        | _ => destruct x; simpl
        end
    end;
  repeat split.

Lemma get_users_fetches (w : world) :
  fetches_once get_users (users_url (self w)) w.
Proof. unfold get_users. run_read. Qed.

Lemma get_groups_fetches (w : world) :
  fetches_once get_groups (groups_url (self w)) w.
Proof. unfold get_groups. run_read. Qed.

Lemma get_user_public_key_fetches (user_id : string) (w : world) :
  fetches_once (get_user_public_key user_id)
    (base_url (self w) ++ "/users/" ++ user_id ++ ".json")%string w.
Proof. unfold get_user_public_key. run_read. Qed.

(** X1.  Every read operation sends exactly one GET, to its own URL, and
    takes one response off the script, whether it then returns or raises.
    It changes nothing of the object, does not call the engine and prints
    nothing.  The lookups fetch the whole listing on every call. *)
Theorem reads_fetch_once (w : world) (wanted : string) :
  fetches_once get_users (users_url (self w)) w /\
  fetches_once get_groups (groups_url (self w)) w /\
  fetches_once (get_user_by_email wanted) (users_url (self w)) w /\
  fetches_once (get_user_by_id wanted) (users_url (self w)) w /\
  fetches_once (get_group_by_name wanted) (groups_url (self w)) w /\
  fetches_once (get_group_by_id wanted) (groups_url (self w)) w /\
  fetches_once (get_user_public_key wanted)
    (base_url (self w) ++ "/users/" ++ wanted ++ ".json")%string w /\
  fetches_once (get_resource_secret wanted)
    (base_url (self w) ++ "/secrets/resource/" ++ wanted ++ ".json")%string w /\
  fetches_once get_resources (base_url (self w) ++ "/resources.json")%string w /\
  fetches_once (get_resource_per_uuid wanted)
    (base_url (self w) ++ "/resources/" ++ wanted ++ ".json")%string w.
Proof.
  split; [apply get_users_fetches|].
  split; [apply get_groups_fetches|].
  split; [unfold get_user_by_email, get_users; run_read|].
  split; [unfold get_user_by_id, get_users; run_read|].
  split; [unfold get_group_by_name, get_groups; run_read|].
  split; [unfold get_group_by_id, get_groups; run_read|].
  split; [apply get_user_public_key_fetches|].
  split; [unfold get_resource_secret; run_read|].
  split; [unfold get_resources; run_read|].
  unfold get_resource_per_uuid; run_read.
Qed.

Ltac blind :=
  intros r r' rest Htext;
  match goal with
  | w : world |- _ => destruct w as [c g inb outb con fs env]
  end;
  unfold with_inbox, bind, get_self, send, loads, lift, ret; simpl;
  rewrite Htext; reflexivity.

(** X2.  No read operation looks at the HTTP status: two responses with
    the same text give the same outcome, whatever their status codes and
    headers.  An error envelope is decoded like any other. *)
Theorem reads_ignore_status (w : world) (wanted : string) :
  status_blind get_users w /\
  status_blind get_groups w /\
  status_blind (get_user_by_email wanted) w /\
  status_blind (get_user_by_id wanted) w /\
  status_blind (get_group_by_name wanted) w /\
  status_blind (get_group_by_id wanted) w /\
  status_blind (get_user_public_key wanted) w /\
  status_blind (get_resource_secret wanted) w /\
  status_blind get_resources w /\
  status_blind (get_resource_per_uuid wanted) w.
Proof.
  split; [unfold get_users; blind|].
  split; [unfold get_groups; blind|].
  split; [unfold get_user_by_email, get_users; blind|].
  split; [unfold get_user_by_id, get_users; blind|].
  split; [unfold get_group_by_name, get_groups; blind|].
  split; [unfold get_group_by_id, get_groups; blind|].
  split; [unfold get_user_public_key; blind|].
  split; [unfold get_resource_secret; blind|].
  split; [unfold get_resources; blind|].
  unfold get_resource_per_uuid; blind.
Qed.

(** *** Lookups on any listing *)

Lemma field_is_null (field wanted : string) : field_is field wanted JNull = false.
Proof. reflexivity. Qed.

Lemma scan_sound (field wanted : string) (items : list json) (v : json) :
  scan field wanted items = Ok v -> found_in field wanted items v.
Proof.
  induction items as [|e items IH]; cbn [scan]; intros H.
  - inversion H; subst. left. split; [reflexivity|constructor].
  - destruct (getitem e field) as [x|] eqn:Hx; [|discriminate].
    destruct (eq_str x wanted) eqn:Hy.
    + inversion H; subst. right. exists [], items. repeat split.
      * unfold field_is. now rewrite Hx.
      * constructor.
    + assert (P : passed_over field wanted e).
      { unfold passed_over, has_field, field_is. now rewrite Hx. }
      destruct (IH H) as [[-> Hall]|(before & after & -> & Hv & Hb)].
      * left. split; [reflexivity|now constructor].
      * right. exists (e :: before), after. repeat split; [assumption|now constructor].
Qed.

Lemma scan_stops (field wanted : string) (before after : list json)
    (bad : json) (e : exn) :
  Forall (passed_over field wanted) before ->
  getitem bad field = Raise e ->
  scan field wanted (before ++ bad :: after) = Raise e.
Proof.
  intros Hb Hbad. induction Hb as [|b before [Hh Hn] _ IH]; cbn [app scan].
  - now rewrite Hbad.
  - unfold has_field in Hh. unfold field_is in Hn.
    destruct (getitem b field); [|discriminate]. now rewrite Hn.
Qed.

Ltac sound_lookup inb :=
  let r := fresh "r" in
  let rest := fresh "rest" in
  let decoded := fresh "decoded" in
  let listing := fresh "listing" in
  let items := fresh "items" in
  let H := fresh "H" in
  intros ? ?;
  unfold bind, get_self, send, loads, lift, ret; simpl;
  destruct inb as [|r rest]; simpl; [discriminate|];
  destruct (json_loads (text r)) as [decoded|] eqn:?; simpl; [|discriminate];
  destruct (getitem decoded "body") as [listing|] eqn:?; simpl; [|discriminate];
  destruct (iter listing) as [items|] eqn:?; simpl; [|discriminate];
  intros H; exists r, rest, decoded, listing, items;
  repeat (split; [first [reflexivity | assumption]|]);
  apply scan_sound; assumption.

(** X3.  Whatever the listing holds, a lookup that returns does not
    invent its answer: an entity it returns is in the listing, carries the
    wanted value, and no entity before it does; and [None] comes back only
    when every entity of the listing carries the field with another
    value. *)
Theorem lookups_sound (w : world) :
  lookup_sound get_user_by_email "username" w /\
  lookup_sound get_user_by_id "id" w /\
  lookup_sound get_group_by_name "name" w /\
  lookup_sound get_group_by_id "id" w.
Proof.
  destruct w as [c g inb outb con fs env].
  split; [unfold lookup_sound, get_user_by_email, get_users; sound_lookup inb|].
  split; [unfold lookup_sound, get_user_by_id, get_users; sound_lookup inb|].
  split; [unfold lookup_sound, get_group_by_name, get_groups; sound_lookup inb|].
  unfold lookup_sound, get_group_by_id, get_groups; sound_lookup inb.
Qed.

(** X4.  An entity that does not carry the compared field (or is not a
    mapping), met before any match, makes the lookup raise what the
    subscript raises; the entities after it are not looked at. *)
Theorem lookups_fail_on_entity_without_field (w : world) (r : response)
    (rest : list response) (decoded bad : json) (before after : list json)
    (wanted : string) :
  inbox w = r :: rest ->
  json_loads (text r) = Some decoded ->
  getitem decoded "body" = Ok (JArr (before ++ bad :: after)) ->
  (Forall (passed_over "username" wanted) before ->
   forall e, getitem bad "username" = Raise e ->
   fst (get_user_by_email wanted w) = Raise e) /\
  (Forall (passed_over "id" wanted) before ->
   forall e, getitem bad "id" = Raise e ->
   fst (get_user_by_id wanted w) = Raise e /\
   fst (get_group_by_id wanted w) = Raise e) /\
  (Forall (passed_over "name" wanted) before ->
   forall e, getitem bad "name" = Raise e ->
   fst (get_group_by_name wanted w) = Raise e).
Proof.
  intros Hin Hl Hb.
  pose proof (get_users_body _ _ _ _ _ Hin Hl Hb) as Hu.
  pose proof (get_groups_body _ _ _ _ _ Hin Hl Hb) as Hg.
  split; [|split].
  - intros Hp e He. unfold get_user_by_email.
    rewrite (bind_ok _ _ _ _ _ Hu). unfold bind, lift; simpl.
    now rewrite (scan_stops _ _ _ _ _ _ Hp He).
  - intros Hp e He. split.
    + unfold get_user_by_id.
      rewrite (bind_ok _ _ _ _ _ Hu). unfold bind, lift; simpl.
      now rewrite (scan_stops _ _ _ _ _ _ Hp He).
    + unfold get_group_by_id.
      rewrite (bind_ok _ _ _ _ _ Hg). unfold bind, lift; simpl.
      now rewrite (scan_stops _ _ _ _ _ _ Hp He).
  - intros Hp e He. unfold get_group_by_name.
    rewrite (bind_ok _ _ _ _ _ Hg). unfold bind, lift; simpl.
    now rewrite (scan_stops _ _ _ _ _ _ Hp He).
Qed.

(** *** Session materialization *)

Ltac crack :=
  repeat (simpl;
    match goal with
    | |- context [match ?x with _ => _ end] =>
        match x with
        | context [match _ with _ => _ end] => fail 1
        | _ => destruct x eqn:?
        end
    end); simpl.

Lemma length_app_string (a b : string) :
  String.length (a ++ b) = (String.length a + String.length b)%nat.
Proof. induction a as [|c a IH]; simpl; [reflexivity|now rewrite IH]. Qed.

Lemma substring_nothing (n : nat) (s : string) : substring n 0 s = "".
Proof.
  revert s. induction n as [|n IH]; intros [|c s]; simpl; try reflexivity. apply IH.
Qed.

Lemma substring_prefix (t s : string) : substring 0 (String.length t) (t ++ s) = t.
Proof.
  induction t as [|c t IH]; simpl.
  - apply (substring_nothing 0).
  - now rewrite IH.
Qed.

Lemma substring_middle (p t s : string) :
  substring (String.length p) (String.length t) (p ++ t ++ s) = t.
Proof.
  induction p as [|c p IH]; simpl; [apply substring_prefix|exact IH].
Qed.

(** [x[10:-8]] of a text made of ten characters, a middle and eight
    characters is the middle. *)
Lemma slice_between (p t s : string) :
  String.length p = 10%nat -> String.length s = 8%nat ->
  slice (p ++ t ++ s) 10 (-8) = t.
Proof.
  intros Hp Hs. unfold slice, clamp.
  rewrite !length_app_string, Hp, Hs.
  replace (10 <? 0) with false by reflexivity.
  replace (-8 <? 0) with true by reflexivity.
  rewrite Z.min_l by lia. rewrite Z.max_r by lia.
  replace (Z.to_nat 10) with (String.length p) by (rewrite Hp; reflexivity).
  replace (Z.to_nat _) with (String.length t) by lia.
  apply substring_middle.
Qed.

(** [x[10:-8]] of a text of at most eighteen characters is empty. *)
Lemma slice_short (x : string) :
  (String.length x <= 18)%nat -> slice x 10 (-8) = "".
Proof.
  intros H. unfold slice, clamp.
  replace (10 <? 0) with false by reflexivity.
  replace (-8 <? 0) with true by reflexivity.
  replace (Z.to_nat (Z.max 0 (Z.of_nat (String.length x) + -8) -
                      Z.min 10 (Z.of_nat (String.length x)))) with 0%nat by lia.
  apply substring_nothing.
Qed.

Lemma get_cookie_ok (w w' : world) :
  get_cookie w = (Ok tt, w') ->
  exists r decoded body id cookie,
    inbox w = r :: inbox w' /\
    json_loads (text r) = Some decoded /\
    getitem decoded "body" = Ok body /\
    getitem body "id" = Ok id /\
    headers_get r "set-cookie" = Some cookie /\
    w' = mkWorld
           (set_session_headers [("X-CSRF-Token", slice cookie 10 (-8))]
              (set_token (JStr (slice cookie 10 (-8))) (set_USER_ID id (self w))))
           (gpg w) (inbox w')
           (outbox w ++ [mkRequest GET (me_url (self w)) None (session_headers (self w))])
           (console w) (file_at w) (environ w).
Proof.
  destruct w as [c g inb outb con fs env].
  unfold get_cookie, bind, get_self, send, loads, lift, update_self, raise, ret.
  crack; intros E; try discriminate. inversion E; subst; clear E. simpl.
  eexists _, _, _, _, _. repeat (split; [first [reflexivity | eassumption]|]).
  reflexivity.
Qed.

(** X5.  [get_cookie] completes exactly when the response to
    [/users/me.json] decodes, has [body.id], and carries a [set-cookie]
    header.  It then stores that id as [USER_ID], the header from its
    eleventh character to the ninth from the end as the token, and makes
    that token the one session header [X-CSRF-Token]; the headers the
    session had before are gone.  The flag, the engine and the console are
    not touched. *)
Theorem get_cookie_completes_iff (w w' : world) :
  get_cookie w = (Ok tt, w') <->
  exists r rest decoded body id cookie,
    inbox w = r :: rest /\
    json_loads (text r) = Some decoded /\
    getitem decoded "body" = Ok body /\
    getitem body "id" = Ok id /\
    headers_get r "set-cookie" = Some cookie /\
    w' = mkWorld
           (set_session_headers [("X-CSRF-Token", slice cookie 10 (-8))]
              (set_token (JStr (slice cookie 10 (-8))) (set_USER_ID id (self w))))
           (gpg w) rest
           (outbox w ++ [mkRequest GET (me_url (self w)) None (session_headers (self w))])
           (console w) (file_at w) (environ w).
Proof.
  split.
  - intros H. apply get_cookie_ok in H
      as (r & decoded & body & id & cookie & Hin & Hl & Hb & Hi & Hc & Hw).
    exists r, (inbox w'), decoded, body, id, cookie. repeat split; assumption.
  - intros (r & rest & decoded & body & id & cookie & Hin & Hl & Hb & Hi & Hc & ->).
    destruct w as [c g inb outb con fs env]; simpl in *. subst inb.
    unfold get_cookie, bind, get_self, send, loads, lift, update_self, raise, ret; simpl.
    rewrite Hl; simpl. rewrite Hb; simpl. rewrite Hi; simpl. now rewrite Hc.
Qed.

(** X6.  When the response to [/users/me.json] has [body.id] but no
    [set-cookie] header, [get_cookie] raises [TypeError] with the object
    half updated: [USER_ID] is the new id, the token and the session
    headers are the old ones. *)
Theorem get_cookie_without_cookie_header (w : world) (r : response)
    (rest : list response) (decoded body id : json) :
  inbox w = r :: rest ->
  json_loads (text r) = Some decoded ->
  getitem decoded "body" = Ok body ->
  getitem body "id" = Ok id ->
  headers_get r "set-cookie" = None ->
  get_cookie w =
    (Raise TypeError,
     mkWorld (set_USER_ID id (self w)) (gpg w) rest
       (outbox w ++ [mkRequest GET (me_url (self w)) None (session_headers (self w))])
       (console w) (file_at w) (environ w)) /\
  token (set_USER_ID id (self w)) = token (self w) /\
  session_headers (set_USER_ID id (self w)) = session_headers (self w).
Proof.
  intros Hin Hl Hb Hi Hc. split; [|split; reflexivity].
  destruct w as [c g inb outb con fs env]; simpl in *. subst inb.
  unfold get_cookie, bind, get_self, send, loads, lift, update_self, raise, ret; simpl.
  rewrite Hl; simpl. rewrite Hb; simpl. rewrite Hi; simpl. now rewrite Hc.
Qed.

(** X7.  The token is cut out of the [set-cookie] header by position
    only.  From a header of ten characters, the token and eight characters
    it takes the token; from a header of at most eighteen characters it
    takes the empty text, and [get_cookie] completes all the same. *)
Theorem get_cookie_token_by_position (w : world) (r : response)
    (rest : list response) (decoded body id : json) (cookie : string) :
  inbox w = r :: rest ->
  json_loads (text r) = Some decoded ->
  getitem decoded "body" = Ok body ->
  getitem body "id" = Ok id ->
  headers_get r "set-cookie" = Some cookie ->
  fst (get_cookie w) = Ok tt /\
  (forall p t s,
     cookie = (p ++ t ++ s)%string ->
     String.length p = 10%nat -> String.length s = 8%nat ->
     token (self (snd (get_cookie w))) = JStr t /\
     session_headers (self (snd (get_cookie w))) = [("X-CSRF-Token", t)]) /\
  ((String.length cookie <= 18)%nat ->
   token (self (snd (get_cookie w))) = JStr "" /\
   session_headers (self (snd (get_cookie w))) = [("X-CSRF-Token", "")]).
Proof.
  intros Hin Hl Hb Hi Hc.
  assert (E : get_cookie w =
    (Ok tt, mkWorld
       (set_session_headers [("X-CSRF-Token", slice cookie 10 (-8))]
          (set_token (JStr (slice cookie 10 (-8))) (set_USER_ID id (self w))))
       (gpg w) rest
       (outbox w ++ [mkRequest GET (me_url (self w)) None (session_headers (self w))])
       (console w) (file_at w) (environ w))).
  { destruct w as [c g inb outb con fs env]; simpl in *. subst inb.
    unfold get_cookie, bind, get_self, send, loads, lift, update_self, raise, ret; simpl.
    rewrite Hl; simpl. rewrite Hb; simpl. rewrite Hi; simpl. now rewrite Hc. }
  rewrite E; simpl. split; [reflexivity|]. split.
  - intros p t s -> Hp Hs. now rewrite (slice_between _ _ _ Hp Hs).
  - intros Hshort. now rewrite (slice_short _ Hshort).
Qed.

(** *** The handshake, step by step *)

Lemma stage1_ok (w w1 : world) (m : json) :
  stage1 w = (Ok m, w1) ->
  exists r,
    inbox w = r :: inbox w1 /\
    self w1 = self w /\ gpg w1 = gpg w /\
    outbox w1 = outbox w ++
      [mkRequest POST (login_url (self w))
         (Some (JObj [("data", JObj [("gpg_auth", JObj [("keyid", FINGERPRINT (self w))])])]))
         (session_headers (self w))] /\
    (m = JNull \/
     exists h, headers_get r "x-gpgauth-user-auth-token" = Some h /\
               m = JStr (replace "\+" " " (unquote h))).
Proof.
  destruct w as [c g inb outb con fs env].
  unfold stage1, bind, get_self, send, loads, lift, emit, raise, ret.
  crack; intros E; try discriminate; inversion E; subst; clear E; simpl;
    eexists; repeat (split; [reflexivity|]); eauto.
Qed.

Lemma decrypt_ok (message : json) (w w2 : world) (n : crypt) :
  decrypt message w = (Ok n, w2) ->
  exists passphrase,
    dict_get (config (self w)) "passphrase" = Ok passphrase /\
    gpg_decrypt message passphrase (gpg w) = (Ok n, gpg w2) /\
    self w2 = self w /\ inbox w2 = inbox w /\ outbox w2 = outbox w.
Proof.
  destruct w as [c g inb outb con fs env].
  unfold decrypt, bind, get_self, lift, call_gpg; simpl.
  destruct (dict_get (config c) "passphrase") as [p|] eqn:Hp; simpl; [|discriminate].
  destruct (gpg_decrypt message p g) as [[x|] g1] eqn:Hd; intros E; inversion E; subst.
  exists p. simpl. repeat split. assumption.
Qed.

Lemma stage2_ok (s : string) (w w3 : world) (a : bool) :
  stage2 s w = (Ok a, w3) ->
  exists r,
    inbox w = r :: inbox w3 /\
    a = envelope_ok r /\
    self w3 = self w /\ gpg w3 = gpg w /\
    outbox w3 = outbox w ++
      [mkRequest POST (login_url (self w))
         (Some (JObj [("data", JObj [("gpg_auth",
            JObj [("keyid", FINGERPRINT (self w)); ("user_token_result", JStr s)])])]))
         (session_headers (self w))].
Proof.
  destruct w as [c g inb outb con fs env].
  unfold stage2, envelope_ok, bind, get_self, send, loads, lift, raise, ret.
  crack; intros E; try discriminate; inversion E; subst; clear E; simpl;
    eexists; (split; [reflexivity|]);
    (split; [repeat match goal with H : _ = _ |- _ => rewrite H end; reflexivity|]);
    repeat split.
Qed.

Lemma check_login_ok (w w' : world) :
  check_login w = (Ok tt, w') ->
  exists r,
    inbox w = r :: inbox w' /\
    self w' = self w /\ gpg w' = gpg w /\
    outbox w' = outbox w ++
      [mkRequest GET (base_url (self w) ++ "/")%string None (session_headers (self w))].
Proof.
  destruct w as [c g inb outb con fs env].
  unfold check_login, bind, get_self, send, emit, ret.
  crack; intros E; try discriminate; inversion E; subst; clear E; simpl;
    eexists; repeat split.
Qed.

(** All that a completed [login] has read, sent and stored. *)
Lemma login_completed (w w' : world) :
  login w = (Ok tt, w') ->
  exists r1 r2 r3 r4 m n passphrase decoded body id cookie,
    inbox w = r1 :: r2 :: r3 :: r4 :: inbox w' /\
    fst (stage1 w) = Ok m /\
    dict_get (config (self w)) "passphrase" = Ok passphrase /\
    gpg_decrypt m passphrase (gpg w) = (Ok n, gpg w') /\
    json_loads (text r3) = Some decoded /\
    getitem decoded "body" = Ok body /\
    getitem body "id" = Ok id /\
    headers_get r3 "set-cookie" = Some cookie /\
    self w' =
      set_session_headers [("X-CSRF-Token", slice cookie 10 (-8))]
        (set_token (JStr (slice cookie 10 (-8)))
           (set_USER_ID id
              (set_authenticated (envelope_ok r2)
                 (set_nonce (Some n) (set_pgp_message m (self w)))))) /\
    outbox w' = outbox w ++ [
      mkRequest POST (login_url (self w))
        (Some (JObj [("data", JObj [("gpg_auth", JObj [("keyid", FINGERPRINT (self w))])])]))
        (session_headers (self w));
      mkRequest POST (login_url (self w))
        (Some (JObj [("data", JObj [("gpg_auth",
           JObj [("keyid", FINGERPRINT (self w)); ("user_token_result", JStr (str n))])])]))
        (session_headers (self w));
      mkRequest GET (me_url (self w)) None (session_headers (self w));
      mkRequest GET (base_url (self w) ++ "/")%string None
        [("X-CSRF-Token", slice cookie 10 (-8))]].
Proof.
  intros H.
  apply login_steps in H as (m & w1 & n & w2 & a & w3 & w4 & H1 & H2 & H3 & H4 & H5).
  pose proof H1 as H1'.
  apply stage1_ok in H1 as (r1 & I1 & S1 & G1 & O1 & _).
  apply decrypt_ok in H2 as (p & Hp & Hd & S2 & I2 & O2).
  apply stage2_ok in H3 as (r2 & I3 & -> & S3 & G3 & O3).
  apply get_cookie_ok in H4 as (r3 & decoded & body & id & cookie & I4 & Hl & Hb & Hi & Hc & W4).
  apply check_login_ok in H5 as (r4 & I5 & S5 & G5 & O5).
  simpl in *.
  exists r1, r2, r3, r4, m, n, p, decoded, body, id, cookie.
  split. { rewrite I1, <- I2, I3, I4. f_equal. f_equal. f_equal.
           rewrite W4 in I5. simpl in I5. exact I5. }
  split. { now rewrite H1'. }
  split. { now rewrite S1 in Hp. }
  split. { rewrite G1 in Hd. rewrite Hd. f_equal. rewrite G5, W4. simpl. now rewrite G3. }
  do 4 (split; [assumption|]).
  split.
  - rewrite S5, W4. simpl. rewrite S3. simpl. rewrite S2. simpl. now rewrite S1.
  - rewrite O5, W4. simpl. rewrite O3. simpl. rewrite O2. simpl. rewrite O1.
    rewrite S3. simpl. rewrite S2. simpl. rewrite S1.
    now rewrite <- !app_assoc.
Qed.

(** X8.  A [login] that completes has sent exactly four requests, in this
    order: the fingerprint to the login URL; the fingerprint and the
    decrypted challenge, as [user_token_result], to the login URL; a GET
    of [/users/me.json]; a GET of the server root.  The first three go out
    with the headers the session had; only the last one carries the
    [X-CSRF-Token]. *)
Theorem login_request_trace (w w' : world) :
  login w = (Ok tt, w') ->
  exists (n : crypt) (csrf : string),
    nonce (self w') = Some n /\
    token (self w') = JStr csrf /\
    outbox w' = outbox w ++ [
      mkRequest POST (login_url (self w))
        (Some (JObj [("data", JObj [("gpg_auth", JObj [("keyid", FINGERPRINT (self w))])])]))
        (session_headers (self w));
      mkRequest POST (login_url (self w))
        (Some (JObj [("data", JObj [("gpg_auth",
           JObj [("keyid", FINGERPRINT (self w)); ("user_token_result", JStr (str n))])])]))
        (session_headers (self w));
      mkRequest GET (me_url (self w)) None (session_headers (self w));
      mkRequest GET (base_url (self w) ++ "/")%string None [("X-CSRF-Token", csrf)]].
Proof.
  intros H.
  apply login_completed in H
    as (r1 & r2 & r3 & r4 & m & n & p & decoded & body & id & cookie
        & _ & _ & _ & _ & _ & _ & _ & _ & Hs & Ho).
  exists n, (slice cookie 10 (-8)). rewrite Hs. simpl. repeat split. exact Ho.
Qed.

(** X9.  What a completed [login] leaves in the object: the stage-1
    token as [pgp_message], its decryption with the configured passphrase
    as [nonce], the verdict of the second response as the flag, the id
    of the third response as [USER_ID], and the token cut from its
    [set-cookie] header, also as the only session header.  The script has
    lost exactly four responses. *)
Theorem login_materializes_session (w w' : world) :
  login w = (Ok tt, w') ->
  exists r1 r2 r3 r4 m n passphrase decoded body id cookie,
    inbox w = r1 :: r2 :: r3 :: r4 :: inbox w' /\
    fst (stage1 w) = Ok m /\
    dict_get (config (self w)) "passphrase" = Ok passphrase /\
    gpg_decrypt m passphrase (gpg w) = (Ok n, gpg w') /\
    json_loads (text r3) = Some decoded /\
    getitem decoded "body" = Ok body /\
    getitem body "id" = Ok id /\
    headers_get r3 "set-cookie" = Some cookie /\
    pgp_message (self w') = m /\
    nonce (self w') = Some n /\
    authenticated (self w') = envelope_ok r2 /\
    USER_ID (self w') = id /\
    token (self w') = JStr (slice cookie 10 (-8)) /\
    session_headers (self w') = [("X-CSRF-Token", slice cookie 10 (-8))] /\
    same_settings (self w) (self w').
Proof.
  intros H.
  apply login_completed in H
    as (r1 & r2 & r3 & r4 & m & n & p & decoded & body & id & cookie
        & Hin & H1 & Hp & Hd & Hl & Hb & Hi & Hc & Hs & _).
  exists r1, r2, r3, r4, m, n, p, decoded, body, id, cookie.
  do 8 (split; [assumption|]).
  rewrite Hs. simpl. unfold same_settings. simpl. repeat split.
Qed.

(** X10.  After a completed [login], [create_group] names as the one
    admin member the id that [/users/me.json] gave, and its request
    carries the token cut from the cookie of that response. *)
Theorem create_group_after_login (w w' : world) (group_name : string) :
  login w = (Ok tt, w') ->
  exists r1 r2 r3 rest decoded body id cookie,
    inbox w = r1 :: r2 :: r3 :: rest /\
    json_loads (text r3) = Some decoded /\
    getitem decoded "body" = Ok body /\
    getitem body "id" = Ok id /\
    headers_get r3 "set-cookie" = Some cookie /\
    outbox (snd (create_group group_name w')) = outbox w' ++
      [mkRequest POST (groups_url (self w))
         (Some (JObj [
            ("name", JStr group_name);
            ("groups_users", JArr [JObj [("user_id", id); ("is_admin", JBool true)]])]))
         [("X-CSRF-Token", slice cookie 10 (-8))]].
Proof.
  intros H.
  apply login_completed in H
    as (r1 & r2 & r3 & r4 & m & n & p & decoded & body & id & cookie
        & Hin & _ & _ & _ & Hl & Hb & Hi & Hc & Hs & _).
  exists r1, r2, r3, (r4 :: inbox w'), decoded, body, id, cookie.
  do 5 (split; [assumption|]).
  destruct w' as [c' g' inb' outb' con' fs' env']; simpl in *. subst c'.
  unfold create_group, bind, get_self, send, ret; simpl.
  now destruct inb'.
Qed.

(** X11.  The flag is never raised without the second response saying
    so.  Starting unauthenticated, however [login] ends, normally or with
    an exception, if the flag is true afterwards then the script had at
    least two responses and the envelope of the second reports code
    200. *)
Theorem login_flag_needs_stage2 (w : world) :
  authenticated (self w) = false ->
  authenticated (self (snd (login w))) = true ->
  exists r1 r2 rest, inbox w = r1 :: r2 :: rest /\ envelope_ok r2 = true.
Proof.
  destruct w as [c g inb outb con fs env]; simpl. intros Hf.
  unfold login, stage1, decrypt, stage2, get_cookie, check_login,
    bind, get_self, send, loads, lift, emit, update_self, call_gpg, raise, ret.
  crack; intros Ht; simpl in Ht; try congruence;
    eexists _, _, _; (split; [reflexivity|]); unfold envelope_ok; simpl;
    repeat match goal with H : _ = _ |- _ => rewrite H end; reflexivity.
Qed.

(** X12.  When stage 1 is accepted but the response has no
    [x-gpgauth-user-auth-token] header, [login] ends there with
    [TypeError]: one request sent, nothing printed, nothing stored, the
    engine not called. *)
Theorem login_without_challenge_header (w : world) (r : response)
    (rest : list response) (decoded header code : json) :
  inbox w = r :: rest ->
  json_loads (text r) = Some decoded ->
  getitem decoded "header" = Ok header ->
  getitem header "code" = Ok code ->
  eq_int code 200 = true ->
  headers_get r "x-gpgauth-user-auth-token" = None ->
  login w =
    (Raise TypeError,
     mkWorld (self w) (gpg w) rest
       (outbox w ++ [mkRequest POST (login_url (self w))
          (Some (JObj [("data", JObj [("gpg_auth", JObj [("keyid", FINGERPRINT (self w))])])]))
          (session_headers (self w))])
       (console w) (file_at w) (environ w)).
Proof.
  intros Hin Hl Hh Hc H200 Hnone.
  pose proof (stage1_accepted _ _ _ _ _ _ Hin Hl Hh Hc H200) as H1.
  rewrite Hnone in H1. unfold login. exact (bind_raise _ _ _ _ _ H1).
Qed.

(** *** The token never keeps an escaped plus *)

Lemma startswith_escaped_plus (c : ascii) (s : string) :
  startswith (String c s) "\+" = true ->
  c = "\"%char /\ exists s', s = String "+" s'.
Proof.
  cbn [startswith]. intros H. apply andb_prop in H as [H1 H2].
  apply Ascii.eqb_eq in H1. split; [now symmetry|].
  destruct s as [|b s']; [discriminate|].
  apply andb_prop in H2 as [H2 _]. apply Ascii.eqb_eq in H2. subst b. now exists s'.
Qed.

Lemma replace_head_plus (s rest : string) :
  replace "\+" " " s = String "+" rest -> exists s', s = String "+" s'.
Proof.
  destruct s as [|c s]; [discriminate|].
  destruct (startswith (String c s) "\+") eqn:E.
  - apply startswith_escaped_plus in E as [-> [s' ->]].
    rewrite replace_escaped_plus_hit. discriminate.
  - rewrite (replace_escaped_plus_miss _ _ E). intros H. inversion H. now exists s.
Qed.

Lemma replace_leaves_no_escaped_plus (n : nat) :
  forall s a b,
    (String.length s <= n)%nat ->
    replace "\+" " " s <> (a ++ "\+" ++ b)%string.
Proof.
  induction n as [|n IH]; intros s a b Hlen.
  - destruct s; [|simpl in Hlen; lia]. destruct a; discriminate.
  - destruct s as [|c s]; [destruct a; discriminate|].
    simpl in Hlen.
    destruct (startswith (String c s) "\+") eqn:E.
    + apply startswith_escaped_plus in E as [-> [s' ->]].
      rewrite replace_escaped_plus_hit. simpl in Hlen.
      destruct a as [|x a]; simpl; intros H; inversion H.
      revert H2. apply IH. lia.
    + rewrite (replace_escaped_plus_miss _ _ E).
      destruct a as [|x a]; simpl; intros H; inversion H.
      * subst c. apply replace_head_plus in H2 as [s' ->]. discriminate.
      * revert H2. apply IH. lia.
Qed.

(** X13.  Whatever the header was, a token that [stage1] returns holds no
    backslash followed by a plus any more. *)
Theorem stage1_token_has_no_escaped_plus (w w1 : world) (t : string) :
  stage1 w = (Ok (JStr t), w1) ->
  forall a b, t <> (a ++ "\+" ++ b)%string.
Proof.
  intros H a b. apply stage1_ok in H as (r & _ & _ & _ & _ & [Hm|(h & _ & Hm)]).
  - discriminate.
  - inversion Hm; subst t. now apply (replace_leaves_no_escaped_plus (String.length (unquote h))).
Qed.

(** *** The settings are never changed *)

Lemma same_settings_refl (c : client) : same_settings c c.
Proof. unfold same_settings. repeat split. Qed.

Lemma settings_kept_refl (w : world) : settings_kept w w.
Proof. apply same_settings_refl. Qed.

Lemma settings_kept_trans (w1 w2 w3 : world) :
  settings_kept w1 w2 -> settings_kept w2 w3 -> settings_kept w1 w3.
Proof.
  unfold settings_kept, same_settings.
  intros (A1 & A2 & A3 & A4 & A5 & A6 & A7 & A8) (B1 & B2 & B3 & B4 & B5 & B6 & B7 & B8).
  repeat split; congruence.
Qed.

Lemma bind_keeps {A B : Type} (m : M A) (k : A -> M B) :
  (forall w, settings_kept w (snd (m w))) ->
  (forall a w, settings_kept w (snd (k a w))) ->
  forall w, settings_kept w (snd (bind m k w)).
Proof.
  intros Hm Hk w. unfold bind. specialize (Hm w).
  destruct (m w) as [[a|e] w1]; simpl in *; [|assumption].
  eapply settings_kept_trans; [eassumption|apply Hk].
Qed.

Lemma ret_keeps {A : Type} (a : A) (w : world) : settings_kept w (snd (ret a w)).
Proof. apply settings_kept_refl. Qed.

Lemma raise_keeps {A : Type} (e : exn) (w : world) :
  settings_kept w (snd (raise (A := A) e w)).
Proof. apply settings_kept_refl. Qed.

Lemma lift_keeps {A : Type} (r : result A) (w : world) :
  settings_kept w (snd (lift r w)).
Proof. apply settings_kept_refl. Qed.

Lemma get_self_keeps (w : world) : settings_kept w (snd (get_self w)).
Proof. apply settings_kept_refl. Qed.

Lemma emit_keeps (o : output) (w : world) : settings_kept w (snd (emit o w)).
Proof. apply same_settings_refl. Qed.

Lemma call_gpg_keeps {A : Type} (op : keyring -> result A * keyring) (w : world) :
  settings_kept w (snd (call_gpg op w)).
Proof. unfold call_gpg. destruct (op (gpg w)). apply same_settings_refl. Qed.

Lemma loads_keeps (s : string) (w : world) : settings_kept w (snd (loads s w)).
Proof. unfold loads. destruct (json_loads s); apply settings_kept_refl. Qed.

Lemma send_keeps (m : verb) (u : string) (b : option json) (w : world) :
  settings_kept w (snd (send m u b w)).
Proof. unfold send. destruct (inbox w); apply same_settings_refl. Qed.

Lemma update_self_keeps (f : client -> client) :
  (forall c, same_settings c (f c)) ->
  forall w, settings_kept w (snd (update_self f w)).
Proof. intros Hf w. apply Hf. Qed.

Lemma setters_keep (c : client) :
  (forall b, same_settings c (set_authenticated b c)) /\
  (forall v, same_settings c (set_token v c)) /\
  (forall v, same_settings c (set_USER_ID v c)) /\
  (forall v, same_settings c (set_pgp_message v c)) /\
  (forall v, same_settings c (set_nonce v c)) /\
  (forall v, same_settings c (set_session_headers v c)).
Proof. unfold same_settings. repeat split. Qed.

Create HintDb settings discriminated.
#[local] Hint Resolve ret_keeps raise_keeps lift_keeps get_self_keeps emit_keeps
  call_gpg_keeps loads_keeps send_keeps : settings.

Ltac keeps :=
  repeat (intros; first
    [ apply bind_keeps
    | apply update_self_keeps; intros; apply setters_keep
    | match goal with
      | |- context [match ?x with _ => _ end] =>
          match x with
          | context [match _ with _ => _ end] => fail 1
          | _ => destruct x
          end
      end
    | solve [auto with settings] ]).

Lemma stage1_keeps (w : world) : settings_kept w (snd (stage1 w)).
Proof. revert w. unfold stage1. keeps. Qed.

Lemma decrypt_keeps (m : json) (w : world) : settings_kept w (snd (decrypt m w)).
Proof. revert w. unfold decrypt. keeps. Qed.

Lemma encrypt_keeps (m : string) (k : json) (w : world) :
  settings_kept w (snd (encrypt m k w)).
Proof. revert w. unfold encrypt. keeps. Qed.

Lemma stage2_keeps (n : string) (w : world) : settings_kept w (snd (stage2 n w)).
Proof. revert w. unfold stage2. keeps. Qed.

Lemma get_cookie_keeps (w : world) : settings_kept w (snd (get_cookie w)).
Proof. revert w. unfold get_cookie. keeps. Qed.

Lemma check_login_keeps (w : world) : settings_kept w (snd (check_login w)).
Proof. revert w. unfold check_login. keeps. Qed.

#[local] Hint Resolve stage1_keeps decrypt_keeps encrypt_keeps stage2_keeps
  get_cookie_keeps check_login_keeps : settings.

Lemma reencrypt_keeps (user_id : string) (user_key : json) (secrets : list json) :
  forall acc w, settings_kept w (snd (reencrypt user_id user_key secrets acc w)).
Proof.
  induction secrets as [|secret rest IH]; intros acc; cbn [reencrypt].
  - keeps.
  - unfold secret_field. keeps.
Qed.

#[local] Hint Resolve reencrypt_keeps : settings.

(** X14.  No method of the client changes what was set before [login]:
    the configuration, the fingerprint, the URLs and the cookies
    attribute are the same after every call, however it ends. *)
Theorem methods_keep_settings (w : world) (a b : string) (flag : bool) (v : json) :
  settings_kept w (snd (login w)) /\
  settings_kept w (snd (stage1 w)) /\
  settings_kept w (snd (stage2 a w)) /\
  settings_kept w (snd (decrypt v w)) /\
  settings_kept w (snd (encrypt a v w)) /\
  settings_kept w (snd (get_cookie w)) /\
  settings_kept w (snd (check_login w)) /\
  settings_kept w (snd (create_group a w)) /\
  settings_kept w (snd (put_user_on_group a b flag w)) /\
  settings_kept w (snd (update_user_to_group_admin a b w)).
Proof.
  split; [revert w; unfold login; keeps|].
  split; [apply stage1_keeps|].
  split; [apply stage2_keeps|].
  split; [apply decrypt_keeps|].
  split; [apply encrypt_keeps|].
  split; [apply get_cookie_keeps|].
  split; [apply check_login_keeps|].
  split; [revert w; unfold create_group; keeps|].
  split; [revert w; unfold put_user_on_group, get_user_public_key; keeps|].
  revert w.
  unfold update_user_to_group_admin, get_group_user_id, get_user_by_id, get_users.
  keeps.
Qed.

(** *** Re-encryption, at its edges *)

(** The loop touches the engine only. *)
Lemma reencrypt_frame (user_id : string) (user_key : json) (secrets : list json) :
  forall acc c g inb outb con fs env,
  exists g',
    snd (reencrypt user_id user_key secrets acc (mkWorld c g inb outb con fs env)) =
    mkWorld c g' inb outb con fs env.
Proof.
  induction secrets as [|secret rest IH]; intros; cbn [reencrypt].
  - now exists g.
  - unfold secret_field, decrypt, encrypt, bind, lift, get_self, call_gpg.
    crack; try (eexists; reflexivity). apply IH.
Qed.

(** X15.  When the 200 dry-run lists no secret (an empty list, and also
    an empty mapping or an empty text), [put_user_on_group] still fetches
    the user's key, does not look at it, does not call the engine, and
    commits with an empty [secrets] list. *)
Theorem put_user_on_group_without_secrets (group_id user_id : string) (admin : bool)
    (w : world) (dry usr commit : response) (rest : list response)
    (decoded body dry_run listed udecoded user user_key : json) :
  inbox w = dry :: usr :: commit :: rest ->
  status_code dry = 200 ->
  json_loads (text dry) = Some decoded ->
  getitem decoded "body" = Ok body ->
  getitem body "dry-run" = Ok dry_run ->
  getitem dry_run "Secrets" = Ok listed ->
  iter listed = Ok [] ->
  json_loads (text usr) = Some udecoded ->
  getitem udecoded "body" = Ok user ->
  getitem user "gpgkey" = Ok user_key ->
  let membership :=
    JArr [JObj [("user_id", JStr user_id); ("is_admin", JBool admin)]] in
  put_user_on_group group_id user_id admin w =
    (Ok commit,
     mkWorld (self w) (gpg w) rest
       (outbox w ++ [
          mkRequest PUT
            (base_url (self w) ++ "/groups/" ++ group_id ++ "/dry-run.json")%string
            (Some (JObj [("id", JStr group_id); ("groups_users", membership)]))
            (session_headers (self w));
          mkRequest GET
            (base_url (self w) ++ "/users/" ++ user_id ++ ".json")%string
            None (session_headers (self w));
          mkRequest PUT
            (base_url (self w) ++ "/groups/" ++ group_id ++ ".json")%string
            (Some (JObj [("id", JStr group_id); ("groups_users", membership);
                         ("secrets", JArr [])]))
            (session_headers (self w))])
       (console w) (file_at w) (environ w)) /\
  (listed = JArr [] \/ listed = JObj [] \/ listed = JStr "").
Proof.
  intros Hin Hst Hl Hb Hd Hs Hit Hul Hub Hk membership. split.
  - destruct w as [c g inb outb con fs env]; simpl in *. subst inb.
    unfold put_user_on_group, get_user_public_key, bind, get_self, send, loads, lift, ret;
      simpl.
    rewrite Hst; simpl. rewrite Hul; simpl. rewrite Hub; simpl. rewrite Hk; simpl.
    rewrite Hl; simpl. rewrite Hb; simpl. rewrite Hd; simpl. rewrite Hs; simpl.
    rewrite Hit; simpl. now rewrite <- !app_assoc.
  - destruct listed as [| | | |s|l|m]; try discriminate; simpl in Hit.
    + right; right. destruct s; [reflexivity|discriminate].
    + left. inversion Hit. reflexivity.
    + right; left. destruct m; [reflexivity|discriminate].
Qed.

(** X16.  After a 200 dry-run, [put_user_on_group] never commits a part
    of the secrets.  However the call ends, it has sent the dry-run and
    the fetch of the key, and then either nothing more, or the commit
    whose [secrets] are the re-encryption of every secret the dry-run
    listed. *)
Theorem put_user_on_group_commits_all_or_nothing (group_id user_id : string)
    (admin : bool) (w : world) (dry : response) (script : list response) :
  inbox w = dry :: script ->
  status_code dry = 200 ->
  let membership :=
    JArr [JObj [("user_id", JStr user_id); ("is_admin", JBool admin)]] in
  let dry_run_put :=
    mkRequest PUT (base_url (self w) ++ "/groups/" ++ group_id ++ "/dry-run.json")%string
      (Some (JObj [("id", JStr group_id); ("groups_users", membership)]))
      (session_headers (self w)) in
  let key_get :=
    mkRequest GET (base_url (self w) ++ "/users/" ++ user_id ++ ".json")%string
      None (session_headers (self w)) in
  let commit_put entries :=
    mkRequest PUT (base_url (self w) ++ "/groups/" ++ group_id ++ ".json")%string
      (Some (JObj [("id", JStr group_id); ("groups_users", membership);
                   ("secrets", JArr entries)]))
      (session_headers (self w)) in
  let w' := snd (put_user_on_group group_id user_id admin w) in
  outbox w' = outbox w ++ [dry_run_put; key_get] \/
  exists (decoded body dry_run listed user_key : json)
         (secrets entries : list json) (g' : keyring),
    json_loads (text dry) = Some decoded /\
    getitem decoded "body" = Ok body /\
    getitem body "dry-run" = Ok dry_run /\
    getitem dry_run "Secrets" = Ok listed /\
    iter listed = Ok secrets /\
    reencrypted (config (self w)) user_id user_key (gpg w) secrets entries g' /\
    List.length entries = List.length secrets /\
    outbox w' = outbox w ++ [dry_run_put; key_get; commit_put entries].
Proof.
  intros Hin Hst membership dry_run_put key_get commit_put.
  destruct w as [c g inb outb con fs env]; simpl in *. subst inb.
  unfold put_user_on_group, get_user_public_key, bind, get_self, send, loads, lift, ret;
    simpl.
  rewrite Hst; simpl.
  assert (L : forall (o : list request) (x y : request), (o ++ [x]) ++ [y] = o ++ [x; y]).
  { intros. now rewrite <- app_assoc. }
  destruct script as [|usr script]; simpl; [left; apply L|].
  destruct (json_loads (text usr)) as [udecoded|]; simpl; [|left; apply L].
  destruct (getitem udecoded "body") as [user|]; simpl; [|left; apply L].
  destruct (getitem user "gpgkey") as [user_key|]; simpl; [|left; apply L].
  destruct (json_loads (text dry)) as [decoded|] eqn:Hl; simpl; [|left; apply L].
  destruct (getitem decoded "body") as [body|] eqn:Hb; simpl; [|left; apply L].
  destruct (getitem body "dry-run") as [dry_run|] eqn:Hd; simpl; [|left; apply L].
  destruct (getitem dry_run "Secrets") as [listed|] eqn:Hs; simpl; [|left; apply L].
  destruct (iter listed) as [secrets|] eqn:Hit; simpl; [|left; apply L].
  destruct (reencrypt_frame user_id user_key secrets [] c g script
              ((outb ++ [dry_run_put]) ++ [key_get]) con fs env) as [g1 Hframe].
  subst dry_run_put key_get membership. simpl in Hframe.
  destruct (reencrypt user_id user_key secrets [] _) as [[l|e] w1] eqn:Hrun;
    simpl in Hframe; subst w1; simpl.
  - apply reencrypt_sound in Hrun as (entries & g' & -> & _ & Hre). simpl.
    right. exists decoded, body, dry_run, listed, user_key, secrets, entries, g'.
    repeat (split; [first [reflexivity | assumption]|]).
    split; [exact (reencrypted_length _ _ _ _ _ _ _ Hre)|].
    destruct script; simpl; now rewrite <- !app_assoc.
  - left. apply L.
Qed.

(** X17.  [encrypt] imports the recipient's key before anything else of
    the encryption.  A key without [armored_key] raises [KeyError] with
    the engine untouched; a key without [fingerprint] raises [KeyError]
    after its [armored_key] went into the key store; and when the import
    raises, no encryption is tried. *)
Theorem encrypt_imports_first (message : string) (public_key : json) (w : world) :
  (forall e, getitem public_key "armored_key" = Raise e ->
             encrypt message public_key w = (Raise e, w)) /\
  (forall armored e g1,
     getitem public_key "armored_key" = Ok armored ->
     gpg_import_keys armored (gpg w) = (Raise e, g1) ->
     encrypt message public_key w = (Raise e, with_gpg g1 w)) /\
  (forall armored e g1,
     getitem public_key "armored_key" = Ok armored ->
     gpg_import_keys armored (gpg w) = (Ok tt, g1) ->
     getitem public_key "fingerprint" = Raise e ->
     encrypt message public_key w = (Raise e, with_gpg g1 w)) /\
  (forall armored fingerprint g1,
     getitem public_key "armored_key" = Ok armored ->
     gpg_import_keys armored (gpg w) = (Ok tt, g1) ->
     getitem public_key "fingerprint" = Ok fingerprint ->
     encrypt message public_key w =
       (fst (gpg_encrypt message fingerprint true g1),
        with_gpg (snd (gpg_encrypt message fingerprint true g1)) w)).
Proof.
  unfold encrypt, bind, lift, call_gpg. repeat split.
  - intros e ->. reflexivity.
  - intros armored e g1 -> Hi. simpl. now rewrite Hi.
  - intros armored e g1 -> Hi Hf. simpl. rewrite Hi. simpl. now rewrite Hf.
  - intros armored fingerprint g1 -> Hi Hf. simpl. rewrite Hi. simpl. rewrite Hf.
    now destruct (gpg_encrypt message fingerprint true g1).
Qed.

(** *** A user that is not in the listing *)

Lemma scan_passed_over (field wanted : string) (items : list json) :
  Forall (passed_over field wanted) items -> scan field wanted items = Ok JNull.
Proof.
  induction 1 as [|e items [Hh Hn] _ IH]; cbn [scan]; [reflexivity|].
  unfold has_field in Hh. unfold field_is in Hn.
  destruct (getitem e field); [|discriminate]. now rewrite Hn.
Qed.

(** X18.  When no user of the listing has the wanted id,
    [get_group_user_id] raises [TypeError] (it subscripts the [None] that
    the lookup returned), and [update_user_to_group_admin] ends with that
    exception after the one GET of the listing: no PUT is sent. *)
Theorem promote_unknown_user (group_id user_id : string) (w : world)
    (r : response) (rest : list response) (decoded : json) (users : list json) :
  inbox w = r :: rest ->
  json_loads (text r) = Some decoded ->
  getitem decoded "body" = Ok (JArr users) ->
  Forall (passed_over "id" user_id) users ->
  let after_listing :=
    mkWorld (self w) (gpg w) rest
      (outbox w ++ [mkRequest GET (users_url (self w)) None (session_headers (self w))])
      (console w) (file_at w) (environ w) in
  fst (get_user_by_id user_id w) = Ok JNull /\
  get_group_user_id group_id user_id w = (Raise TypeError, after_listing) /\
  update_user_to_group_admin group_id user_id w = (Raise TypeError, after_listing).
Proof.
  intros Hin Hl Hb Hno after_listing.
  pose proof (get_users_body _ _ _ _ _ Hin Hl Hb) as Hu.
  assert (Hid : get_user_by_id user_id w = (Ok JNull, after_listing)).
  { unfold get_user_by_id. rewrite (bind_ok _ _ _ _ _ Hu).
    unfold bind, lift; simpl. now rewrite (scan_passed_over _ _ _ Hno). }
  assert (Hg : get_group_user_id group_id user_id w = (Raise TypeError, after_listing)).
  { unfold get_group_user_id. now rewrite (bind_ok _ _ _ _ _ Hid). }
  split; [now rewrite Hid|]. split; [exact Hg|].
  unfold update_user_to_group_admin. exact (bind_raise _ _ _ _ _ Hg).
Qed.

(** X19.  A user who is in the listing but has no membership in the
    group is promoted all the same: the lookup of the record returns
    [None], and the dry-run PUT goes out with that as the record id. *)
Theorem promote_non_member (group_id user_id : string) (w : world)
    (r : response) (rest : list response) (decoded user : json)
    (users memberships : list json) :
  inbox w = r :: rest ->
  json_loads (text r) = Some decoded ->
  getitem decoded "body" = Ok (JArr users) ->
  Forall (fun e => has_field "id" e = true) users ->
  find (field_is "id" user_id) users = Some user ->
  getitem user "groups_users" = Ok (JArr memberships) ->
  Forall (passed_over "group_id" group_id) memberships ->
  fst (get_group_user_id group_id user_id w) = Ok JNull /\
  nth_error (outbox (snd (update_user_to_group_admin group_id user_id w)))
    (S (List.length (outbox w))) =
    Some (mkRequest PUT
            (base_url (self w) ++ "/groups/" ++ group_id ++ "/dry-run.json")%string
            (Some (JObj [
               ("id", JStr group_id);
               ("groups_users", JArr [JObj [("id", JNull); ("is_admin", JBool true)]])]))
            (session_headers (self w))).
Proof.
  intros Hin Hl Hb Hus Hu Hms Hno.
  assert (Hscan : scan_membership group_id memberships = Ok JNull).
  { clear Hms. induction Hno as [|m ms [Hh Hn] _ IH]; cbn [scan_membership];
      [reflexivity|].
    unfold has_field in Hh. unfold field_is in Hn.
    destruct (getitem m "group_id"); [|discriminate]. now rewrite Hn. }
  assert (Hg : get_group_user_id group_id user_id w =
    (Ok JNull,
     mkWorld (self w) (gpg w) rest
       (outbox w ++ [mkRequest GET (users_url (self w)) None (session_headers (self w))])
       (console w) (file_at w) (environ w))).
  { unfold get_group_user_id, get_user_by_id. unfold bind at 1.
    rewrite (bind_ok _ _ _ _ _ (get_users_body _ _ _ _ _ Hin Hl Hb)).
    unfold bind, lift; simpl.
    rewrite (scan_find _ _ _ Hus), Hu, Hms; simpl. now rewrite Hscan. }
  split; [now rewrite Hg|].
  unfold update_user_to_group_admin. rewrite (bind_ok _ _ _ _ _ Hg).
  unfold bind, get_self, send, emit, ret; simpl.
  assert (N : forall (o more : list request) (a b : request),
             nth_error (o ++ a :: b :: more) (S (List.length o)) = Some b).
  { intros o more a b. induction o as [|x o IH]; [reflexivity|exact IH]. }
  destruct rest as [|d rest']; simpl.
  - rewrite <- app_assoc. apply (N _ []).
  - destruct (status_code d =? 200); simpl.
    + destruct rest'; simpl; rewrite <- !app_assoc; simpl; apply N.
    + rewrite <- app_assoc. apply (N _ []).
Qed.

(** *** When [load_config] raises *)


End MoreProperties.

(** ** Runs *)

Import Demo.

Example login_run :
  fst (login (facing me handshake_ok)) = Ok tt /\
  let c := self (snd (login (facing me handshake_ok))) in
  authenticated c = true /\
  pgp_message c = JStr "enc:the nonce 1" /\
  nonce c = Some (mkCrypt true "the nonce 1") /\
  USER_ID c = JStr "u-me" /\
  token c = JStr "abcdef" /\
  session_headers c = [("X-CSRF-Token", "abcdef")].
Proof. vm_compute. repeat split. Qed.

Lemma login_authenticated_iff_stage2_witness :
  authenticated (self (snd (login (facing me handshake_ok)))) = true <->
  envelope_ok (reply 200 "ok") = true.
Proof.
  apply (login_authenticated_iff_stage2 (facing me handshake_ok)
           (snd (login (facing me handshake_ok)))
           (reply_with 200 "x-gpgauth-user-auth-token" "enc:the%20nonce\+1" "ok")
           (reply 200 "ok")
           [reply_with 200 "set-cookie" "csrfToken=abcdef; path=/" "me"; reply 200 ""]).
  - reflexivity.
  - vm_compute. reflexivity.
Defined.

(** Against C1 as stated: the challenge does not decrypt, stage 2 is
    accepted all the same, and the client ends authenticated. *)
Lemma login_authenticated_after_failed_decryption :
  let w := facing me handshake_garbled in
  fst (login w) = Ok tt /\
  nonce (self (snd (login w))) = Some (mkCrypt false "") /\
  ~ (authenticated (self (snd (login w))) = true <->
     envelope_ok (reply_with 200 "x-gpgauth-user-auth-token"
                    "not%20a%20pgp%20message" "ok") = true /\
     (exists n, nonce (self (snd (login w))) = Some n /\ ok n = true) /\
     envelope_ok (reply 200 "ok") = true).
Proof.
  split; [vm_compute; reflexivity|]. split; [vm_compute; reflexivity|].
  intros [H _]. destruct H as (_ & (n & Hn & Hok) & _).
  - vm_compute. reflexivity.
  - vm_compute in Hn. inversion Hn; subst n. discriminate.
Qed.

(** The same end when it is stage 1 that is refused. *)
Example login_run_stage1_refused :
  let w := facing me handshake_stage1_bad in
  fst (login w) = Ok tt /\
  authenticated (self (snd (login w))) = true /\
  envelope_ok (reply 200 "bad") = false /\
  console (snd (login w)) = [OutPprint (envelope 400 JNull)].
Proof. vm_compute. repeat split. Qed.

Lemma login_after_stage1_rejection_witness :
  let w := facing me handshake_rejected in
  fst (stage1 w) = Ok JNull /\
  (exists out, console (snd (login w)) = OutPprint (envelope 400 JNull) :: out) /\
  authenticated (self (snd (login w))) = false /\
  (exists more,
     outbox (snd (login w)) =
       mkRequest POST "https://pb.example/auth/login.json"
         (Some (JObj [("data", JObj [("gpg_auth", JObj [("keyid", JStr "FPR-ME")])])])) []
       :: mkRequest POST "https://pb.example/auth/login.json"
            (Some (JObj [("data", JObj [("gpg_auth",
               JObj [("keyid", JStr "FPR-ME"); ("user_token_result", JStr "")])])])) []
       :: more).
Proof.
  destruct (login_after_stage1_rejection (facing me handshake_rejected)
              (reply 200 "bad") (tl handshake_rejected)
              (envelope 400 JNull) (JObj [("code", JInt 400)]) (JInt 400)
              eq_refl eq_refl eq_refl eq_refl eq_refl)
    as ((w1 & H1 & _) & Hout & Hflag & _ & Hgoes).
  split; [|split; [|split]].
  - now rewrite H1.
  - exact Hout.
  - apply (Hflag _ (reply 200 "bad") (tl (tl handshake_rejected))).
    + vm_compute. reflexivity.
    + reflexivity.
    + reflexivity.
  - exact (Hgoes (JStr "pw") (mkCrypt false "") [] eq_refl eq_refl).
Defined.

(** Against C6 as stated: stage 1 and stage 2 are refused, and [login]
    ends with an exception raised while it reads its own user id, after
    its third request. *)
Lemma login_raises_after_refusal :
  let w := facing me handshake_refused in
  envelope_ok (reply 200 "bad") = false /\
  fst (login w) = Raise TypeError /\
  map url (outbox (snd (login w))) =
    ["https://pb.example/auth/login.json"; "https://pb.example/auth/login.json";
     "https://pb.example/users/me.json"] /\
  ~ (exists w', login w = (Ok tt, w') /\ authenticated (self w') = false /\
                console w' <> console w).
Proof.
  split; [reflexivity|]. split; [vm_compute; reflexivity|].
  split; [vm_compute; reflexivity|].
  intros (w' & H & _). apply (f_equal fst) in H.
  vm_compute in H. discriminate.
Qed.

Lemma stage1_returns_token_witness :
  let w := facing me handshake_ok in
  fst (stage1 w) = Ok (JStr (replace "\+" " " (unquote "enc:the%20nonce\+1"))) /\
  self (snd (stage1 w)) = self w /\
  console (snd (stage1 w)) = console w.
Proof.
  apply (stage1_returns_token (facing me handshake_ok)
           (reply_with 200 "x-gpgauth-user-auth-token" "enc:the%20nonce\+1" "ok")
           (tl handshake_ok)
           (envelope 200 JNull) (JObj [("code", JInt 200)]) (JInt 200));
    reflexivity.
Defined.

(** Against C4 as stated: a plus without a backslash before it stays. *)
Lemma stage1_keeps_bare_plus :
  let r := reply_with 200 "x-gpgauth-user-auth-token" "a+b%20c" "ok" in
  unquote "a+b%20c" = "a+b c" /\
  fst (stage1 (facing me [r])) = Ok (JStr "a+b c") /\
  fst (stage1 (facing me [r])) <> Ok (JStr (replace "+" " " (unquote "a+b%20c"))).
Proof.
  split; [reflexivity|]. split; [reflexivity|].
  vm_compute. discriminate.
Qed.

Example put_user_on_group_run :
  fst (put_user_on_group "g-ops" "u-bob" false add_bob) = Ok (reply 200 "ok") /\
  map url (outbox (snd (put_user_on_group "g-ops" "u-bob" false add_bob))) =
    ["https://pb.example/groups/g-ops/dry-run.json";
     "https://pb.example/users/u-bob.json";
     "https://pb.example/groups/g-ops.json"] /\
  option_map (fun b => getitem b "secrets")
    (json_body (last (outbox (snd (put_user_on_group "g-ops" "u-bob" false add_bob)))
                  (mkRequest GET "" None []))) =
    Some (Ok (JArr [
      JObj [("resource_id", JStr "r-1"); ("user_id", JStr "u-bob");
            ("data", JStr "to:FPR-BOB:hunter2")];
      JObj [("resource_id", JStr "r-2"); ("user_id", JStr "u-bob");
            ("data", JStr "to:FPR-BOB:s3cret")]])) /\
  gpg (snd (put_user_on_group "g-ops" "u-bob" false add_bob)) =
    [JStr "KEY-BOB"; JStr "KEY-BOB"].
Proof. vm_compute. repeat split. Qed.

Lemma put_user_on_group_reencrypts_witness :
  exists entries,
    List.length entries = 2%nat /\
    option_map json_body
      (nth_error (outbox (snd (put_user_on_group "g-ops" "u-bob" false add_bob))) 2) =
    Some (Some (JObj [
      ("id", JStr "g-ops");
      ("groups_users", JArr [JObj [("user_id", JStr "u-bob"); ("is_admin", JBool false)]]);
      ("secrets", JArr entries)])).
Proof.
  destruct (proj1 (put_user_on_group_reencrypts "g-ops" "u-bob" false add_bob
                     (snd (put_user_on_group "g-ops" "u-bob" false add_bob))
                     (reply 200 "dry-run") (reply 200 "ok")
                     [reply 200 "bob"; reply 200 "ok"] eq_refl eq_refl))
    as (usr & rest & decoded & body & dry_run & listed & udecoded & user & user_key
        & secrets & entries & g' & _ & Hl & Hb & Hd & Hs & Hit & _ & _ & _ & _ & Hlen & Hw).
  - vm_compute. reflexivity.
  - exists entries. split.
    + rewrite Hlen. vm_compute in Hl. inversion Hl; subst decoded.
      vm_compute in Hb. inversion Hb; subst body.
      vm_compute in Hd. inversion Hd; subst dry_run.
      vm_compute in Hs. inversion Hs; subst listed.
      vm_compute in Hit. inversion Hit; subst secrets. reflexivity.
    + rewrite Hw. reflexivity.
Defined.

Lemma put_user_on_group_aborts_witness :
  let w := facing logged_in [reply 403 "forbidden"; reply 200 "ok"] in
  put_user_on_group "g-ops" "u-bob" false w =
    (Ok (reply 403 "forbidden"),
     mkWorld (self w) (gpg w) [reply 200 "ok"]
       (outbox w ++
          [mkRequest PUT "https://pb.example/groups/g-ops/dry-run.json"
             (Some (JObj [
                ("id", JStr "g-ops");
                ("groups_users",
                 JArr [JObj [("user_id", JStr "u-bob"); ("is_admin", JBool false)]])]))
             (session_headers (self w))])
       (console w ++ [OutHeaders (reply 403 "forbidden"); OutBlank;
                      OutStr "forbidden"; OutBlank])
       (file_at w) (environ w)).
Proof.
  refine (proj1 (put_user_on_group_aborts "g-ops" "u-bob" false
                   (facing logged_in [reply 403 "forbidden"; reply 200 "ok"])
                   (reply 403 "forbidden") [reply 200 "ok"] eq_refl _)).
  simpl. lia.
Defined.

Example lookups_run :
  fst (get_user_by_email "alice@example.com" listing) = Ok alice /\
  fst (get_user_by_email "nobody@example.com" listing) = Ok JNull /\
  fst (get_user_by_id "u-alice" listing) = Ok alice /\
  fst (get_user_by_id "u-carol" listing) = Ok JNull /\
  fst (get_group_by_name "ops" group_listing) = Ok ops /\
  fst (get_group_by_name "sales" group_listing) = Ok JNull /\
  fst (get_group_by_id "g-ops" group_listing) = Ok ops /\
  fst (get_group_by_id "g-none" group_listing) = Ok JNull.
Proof. vm_compute. repeat split. Qed.

Lemma lookups_first_match_witness :
  fst (get_user_by_email "alice@example.com" listing) = Ok alice /\
  fst (get_user_by_email "nobody@example.com" listing) = Ok JNull /\
  fst (get_user_by_id "u-alice" listing) = Ok alice /\
  fst (get_group_by_id "g-ops" group_listing) = Ok ops /\
  fst (get_group_by_name "ops" group_listing) = Ok ops.
Proof.
  destruct (lookups_first_match listing (reply 200 "users") []
              (envelope 200 (JArr [bob; alice; alice_again]))
              [bob; alice; alice_again] eq_refl eq_refl eq_refl)
    as (Hemail & Hid & _).
  destruct (lookups_first_match group_listing (reply 200 "groups") []
              (envelope 200 (JArr [dev; ops; ops_again]))
              [dev; ops; ops_again] eq_refl eq_refl eq_refl)
    as (_ & Hgid & Hname).
  assert (F : forall field (l : list json),
             forallb (has_field field) l = true ->
             Forall (fun e => has_field field e = true) l).
  { intros field l H. apply Forall_forall. intros e He.
    exact (proj1 (forallb_forall _ _) H e He). }
  specialize (Hemail (F "username" [bob; alice; alice_again] eq_refl)).
  destruct (Hid (F "id" [bob; alice; alice_again] eq_refl)) as [Huid _].
  destruct (Hgid (F "id" [dev; ops; ops_again] eq_refl)) as [_ Hgid'].
  specialize (Hname (F "name" [dev; ops; ops_again] eq_refl)).
  split; [|split; [|split; [|split]]].
  - apply (proj2 (Hemail "alice@example.com") [bob] alice [alice_again] eq_refl);
      [|reflexivity].
    intros e' [<-|[]]. reflexivity.
  - apply (proj1 (Hemail "nobody@example.com")).
    intros e [<-|[<-|[<-|[]]]]; reflexivity.
  - apply (proj2 (Huid "u-alice") [bob] alice [alice_again] eq_refl); [|reflexivity].
    intros e' [<-|[]]. reflexivity.
  - apply (proj2 (Hgid' "g-ops") [dev] ops [ops_again] eq_refl); [|reflexivity].
    intros e' [<-|[]]. reflexivity.
  - apply (proj2 (Hname "ops") [dev] ops [ops_again] eq_refl); [|reflexivity].
    intros e' [<-|[]]. reflexivity.
Defined.

Lemma load_config_precedence_witness :
  let files := one_file "/app" "config.json" "config" in
  let env := [("PASSBOLT_BASEURL", "https://env.example")] in
  let given := [("base_url", JStr "https://arg.example")] in
  config (self (snd (load_config "config.json" "/app" (JObj given) (host files env)))) =
    JObj given /\
  config (self (snd (load_config "config.json" "/app" (JObj []) (host files env)))) =
    JObj [("base_url", JStr "https://file.example")] /\
  load_config "config.json" "/app" (JObj []) (host (fun _ _ => None) env) =
    (Ok tt,
     with_self (set_config (JObj [
        ("gpgbinary", JStr "gpg"); ("base_url", JStr "https://env.example");
        ("private_key", JStr "undefined"); ("passphrase", JStr "gpg")]) me)
       (host (fun _ _ => None) env)).
Proof.
  intros files env given. split; [|split].
  - rewrite (proj1 (load_config_precedence "config.json" "/app" given (host files env))).
    + reflexivity.
    + discriminate.
  - rewrite (proj1 (proj2 (load_config_precedence "config.json" "/app" []
                             (host files env)))
               eq_refl "config" (JObj [("base_url", JStr "https://file.example")])
               eq_refl eq_refl).
    reflexivity.
  - destruct (proj2 (proj2 (load_config_precedence "config.json" "/app" []
                              (host (fun _ _ => None) env))) eq_refl eq_refl)
      as (gpgbinary & url & key & passphrase & E & -> & -> & -> & ->).
    exact E.
Defined.

Lemma update_user_to_group_admin_forwards_record_witness :
  let run := update_user_to_group_admin "g-dev" "u-alice" promote_alice in
  let body := JObj [
    ("id", JStr "g-dev");
    ("groups_users", JArr [JObj [("id", JStr "m-2"); ("is_admin", JBool true)]])] in
  getitem body "secrets" = Raise KeyError /\
  outbox (snd run) =
    [mkRequest GET "https://pb.example/users.json" None [("X-CSRF-Token", "tok")];
     mkRequest PUT "https://pb.example/groups/g-dev/dry-run.json" (Some body)
       [("X-CSRF-Token", "tok")];
     mkRequest PUT "https://pb.example/groups/g-dev.json" (Some body)
       [("X-CSRF-Token", "tok")]] /\
  fst run = Ok (reply 200 "ok").
Proof.
  assert (F : forall field (l : list json),
             forallb (has_field field) l = true ->
             Forall (fun e => has_field field e = true) l).
  { intros field l H. apply Forall_forall. intros e He.
    exact (proj1 (forallb_forall _ _) H e He). }
  destruct (update_user_to_group_admin_forwards_record "g-dev" "u-alice" promote_alice)
    as [Hsent Hid].
  rewrite (Hid (reply 200 "users") [reply 200 "ok"; reply 200 "ok"]
             (envelope 200 (JArr [bob; alice; alice_again])) alice
             [bob; alice; alice_again] alice_memberships
             eq_refl eq_refl eq_refl (F "id" [bob; alice; alice_again] eq_refl)
             eq_refl eq_refl
             (F "group_id" alice_memberships eq_refl) (F "id" alice_memberships eq_refl))
    in Hsent.
  destruct Hsent as (Hbody & Hout & Hres).
  split; [exact Hbody|]. split; [exact Hout|exact Hres].
Defined.

Example create_group_run :
  outbox (snd (create_group "ops" (facing logged_in [reply 200 "ok"]))) =
    [mkRequest POST "https://pb.example/groups.json"
       (Some (JObj [
          ("name", JStr "ops");
          ("groups_users",
           JArr [JObj [("user_id", JStr "u-me"); ("is_admin", JBool true)]])]))
       [("X-CSRF-Token", "tok")]].
Proof. reflexivity. Qed.

(** Against C9 as stated: the liveness response sets a cookie, and the
    jar of the session has it afterwards. *)
Lemma check_login_takes_cookies :
  let w := facing logged_in
             [reply_with 200 "set-cookie" "passbolt_session=abc; path=/" ""] in
  fst (check_login w) = Ok tt /\
  cookies_after (J := toy_jar) check_login [] w = [("passbolt_session", "abc")] /\
  cookies_after (J := toy_jar) check_login [] w <> [].
Proof. split; [reflexivity|]. split; [reflexivity|discriminate]. Qed.

Example check_login_run :
  let w := facing logged_in [reply 302 ""] in
  self (snd (check_login w)) = logged_in /\
  console (snd (check_login w)) = [OutStr "Falha no login"; OutResponse (reply 302 "")].
Proof. split; reflexivity. Qed.

Example replace_ex1 : replace "\+" " " "a\+b\+\+c+d\" = "a b  c+d\".
Proof. reflexivity. Qed.
Example replace_ex2 : replace "" "-" "abc" = "-a-b-c-".
Proof. reflexivity. Qed.
Example replace_ex3 : replace "aa" "b" "aaaaa" = "bba".
Proof. reflexivity. Qed.
Example slice_ex1 : slice "0123456789abcdefghijklmnop" 10 (-8) = "abcdefgh".
Proof. reflexivity. Qed.
Example slice_ex2 : slice "0123456789abcdefg" 10 (-8) = "".
Proof. reflexivity. Qed.
Example eq_int_ex : eq_int (JFloat (S754_finite false 25 3)) 200 = true.
Proof. reflexivity. Qed.

(** ** Runs of the further properties *)

Lemma lookups_fail_on_entity_without_field_witness :
  fst (get_user_by_email (X := toy_more) "alice@example.com"
         (facing_more logged_in [reply 200 "users-broken"])) = Raise KeyError.
Proof.
  refine (proj1 (lookups_fail_on_entity_without_field (X := toy_more)
                   (facing_more logged_in [reply 200 "users-broken"])
                   (reply 200 "users-broken") []
                   (envelope 200 (JArr [bob; stranger; alice])) stranger
                   [bob] [alice] "alice@example.com" eq_refl eq_refl eq_refl)
            _ KeyError eq_refl).
  constructor; [split; reflexivity|constructor].
Defined.

Lemma get_cookie_without_cookie_header_witness :
  let w := facing me [reply 200 "me"] in
  fst (get_cookie w) = Raise TypeError /\
  USER_ID (self (snd (get_cookie w))) = JStr "u-me" /\
  token (self (snd (get_cookie w))) = JNull /\
  session_headers (self (snd (get_cookie w))) = [].
Proof.
  destruct (get_cookie_without_cookie_header (facing me [reply 200 "me"])
              (reply 200 "me") [] (envelope 200 (JObj [("id", JStr "u-me")]))
              (JObj [("id", JStr "u-me")]) (JStr "u-me")
              eq_refl eq_refl eq_refl eq_refl eq_refl) as (E & Ht & Hs).
  cbv zeta. rewrite E. repeat split.
Defined.

Lemma get_cookie_token_by_position_witness :
  let w := facing me [reply_with 200 "set-cookie" "csrfToken=abcdef; path=/" "me"] in
  fst (get_cookie w) = Ok tt /\
  token (self (snd (get_cookie w))) = JStr "abcdef" /\
  session_headers (self (snd (get_cookie w))) = [("X-CSRF-Token", "abcdef")].
Proof.
  destruct (get_cookie_token_by_position
              (facing me [reply_with 200 "set-cookie" "csrfToken=abcdef; path=/" "me"])
              (reply_with 200 "set-cookie" "csrfToken=abcdef; path=/" "me") []
              (envelope 200 (JObj [("id", JStr "u-me")]))
              (JObj [("id", JStr "u-me")]) (JStr "u-me") "csrfToken=abcdef; path=/"
              eq_refl eq_refl eq_refl eq_refl eq_refl) as (Hok & Hcut & _).
  split; [exact Hok|].
  exact (Hcut "csrfToken=" "abcdef" "; path=/" eq_refl eq_refl eq_refl).
Defined.

Lemma login_request_trace_witness :
  let w := facing me handshake_ok in
  exists (n : crypt) (csrf : string),
    nonce (self (snd (login w))) = Some n /\
    token (self (snd (login w))) = JStr csrf /\
    outbox (snd (login w)) = outbox w ++ [
      mkRequest POST "https://pb.example/auth/login.json"
        (Some (JObj [("data", JObj [("gpg_auth", JObj [("keyid", JStr "FPR-ME")])])])) [];
      mkRequest POST "https://pb.example/auth/login.json"
        (Some (JObj [("data", JObj [("gpg_auth",
           JObj [("keyid", JStr "FPR-ME"); ("user_token_result", JStr (str n))])])])) [];
      mkRequest GET "https://pb.example/users/me.json" None [];
      mkRequest GET "https://pb.example/" None [("X-CSRF-Token", csrf)]].
Proof.
  apply (login_request_trace (facing me handshake_ok)
           (snd (login (facing me handshake_ok)))).
  vm_compute. reflexivity.
Defined.

Lemma login_materializes_session_witness :
  let w := facing me handshake_ok in
  exists id cookie,
    USER_ID (self (snd (login w))) = id /\
    token (self (snd (login w))) = JStr (slice cookie 10 (-8)) /\
    session_headers (self (snd (login w))) = [("X-CSRF-Token", slice cookie 10 (-8))] /\
    same_settings (self w) (self (snd (login w))).
Proof.
  destruct (login_materializes_session (facing me handshake_ok)
              (snd (login (facing me handshake_ok))))
    as (r1 & r2 & r3 & r4 & m & n & p & decoded & body & id & cookie
        & _ & _ & _ & _ & _ & _ & _ & _ & _ & _ & _ & Hu & Ht & Hs & Hk).
  - vm_compute. reflexivity.
  - exists id, cookie. repeat split; try assumption; apply Hk.
Defined.

Lemma create_group_after_login_witness :
  let w := facing me (handshake_ok ++ [reply 200 "ok"]) in
  exists id cookie,
    outbox (snd (create_group "ops" (snd (login w)))) = outbox (snd (login w)) ++
      [mkRequest POST "https://pb.example/groups.json"
         (Some (JObj [
            ("name", JStr "ops");
            ("groups_users", JArr [JObj [("user_id", id); ("is_admin", JBool true)]])]))
         [("X-CSRF-Token", slice cookie 10 (-8))]].
Proof.
  destruct (create_group_after_login (facing me (handshake_ok ++ [reply 200 "ok"]))
              (snd (login (facing me (handshake_ok ++ [reply 200 "ok"])))) "ops")
    as (r1 & r2 & r3 & rest & decoded & body & id & cookie & _ & _ & _ & _ & _ & H).
  - vm_compute. reflexivity.
  - exists id, cookie. exact H.
Defined.

Lemma login_flag_needs_stage2_witness :
  exists r1 r2 rest,
    inbox (facing me handshake_ok) = r1 :: r2 :: rest /\ envelope_ok r2 = true.
Proof.
  apply (login_flag_needs_stage2 (facing me handshake_ok)).
  - reflexivity.
  - vm_compute. reflexivity.
Defined.

Lemma login_without_challenge_header_witness :
  let w := facing me [reply 200 "ok"; reply 200 "ok"] in
  fst (login w) = Raise TypeError /\
  List.length (outbox (snd (login w))) = 1%nat /\
  self (snd (login w)) = me /\
  console (snd (login w)) = [].
Proof.
  cbv zeta.
  rewrite (login_without_challenge_header (facing me [reply 200 "ok"; reply 200 "ok"])
             (reply 200 "ok") [reply 200 "ok"]
             (envelope 200 JNull) (JObj [("code", JInt 200)]) (JInt 200)
             eq_refl eq_refl eq_refl eq_refl eq_refl eq_refl).
  repeat split.
Defined.

Lemma stage1_token_has_no_escaped_plus_witness :
  fst (stage1 (facing me handshake_ok)) = Ok (JStr "enc:the nonce 1") /\
  "enc:the nonce 1" <> ("enc:the nonce" ++ "\+" ++ "1")%string.
Proof.
  split; [reflexivity|].
  apply (stage1_token_has_no_escaped_plus (facing me handshake_ok)
           (snd (stage1 (facing me handshake_ok))) "enc:the nonce 1").
  vm_compute. reflexivity.
Defined.

Lemma put_user_on_group_without_secrets_witness :
  let w := facing_more logged_in
             [reply 200 "dry-run-empty"; reply 200 "bob"; reply 200 "ok"] in
  fst (put_user_on_group (X := toy_more) "g-ops" "u-bob" true w) = Ok (reply 200 "ok") /\
  gpg (snd (put_user_on_group (X := toy_more) "g-ops" "u-bob" true w)) = [] /\
  option_map json_body
    (nth_error (outbox (snd (put_user_on_group (X := toy_more) "g-ops" "u-bob" true w))) 2) =
    Some (Some (JObj [
      ("id", JStr "g-ops");
      ("groups_users", JArr [JObj [("user_id", JStr "u-bob"); ("is_admin", JBool true)]]);
      ("secrets", JArr [])])).
Proof.
  destruct (put_user_on_group_without_secrets (X := toy_more) "g-ops" "u-bob" true
              (facing_more logged_in
                 [reply 200 "dry-run-empty"; reply 200 "bob"; reply 200 "ok"])
              (reply 200 "dry-run-empty") (reply 200 "bob") (reply 200 "ok") []
              (envelope 200 (JObj [("dry-run", JObj [("Secrets", JObj [])])]))
              (JObj [("dry-run", JObj [("Secrets", JObj [])])])
              (JObj [("Secrets", JObj [])]) (JObj [])
              (envelope 200 (JObj [("id", JStr "u-bob"); ("gpgkey", bob_key)]))
              (JObj [("id", JStr "u-bob"); ("gpgkey", bob_key)]) bob_key
              eq_refl eq_refl eq_refl eq_refl eq_refl eq_refl eq_refl
              eq_refl eq_refl eq_refl) as [E _].
  cbv zeta. rewrite E. repeat split.
Defined.

Lemma put_user_on_group_commits_all_or_nothing_witness :
  let w := facing logged_in [reply 200 "dry-run"; reply 200 "forbidden"] in
  List.length (outbox (snd (put_user_on_group "g-ops" "u-bob" false w))) = 2%nat \/
  exists entries : list json,
    List.length entries = 2%nat /\
    List.length (outbox (snd (put_user_on_group "g-ops" "u-bob" false w))) = 3%nat.
Proof.
  destruct (put_user_on_group_commits_all_or_nothing "g-ops" "u-bob" false
              (facing logged_in [reply 200 "dry-run"; reply 200 "forbidden"])
              (reply 200 "dry-run") [reply 200 "forbidden"] eq_refl eq_refl)
    as [H|(decoded & body & dry_run & listed & user_key & secrets & entries & g'
           & Hl & Hb & Hd & Hs & Hit & _ & Hlen & H)].
  - left. rewrite H. reflexivity.
  - right. exists entries. split.
    + rewrite Hlen. vm_compute in Hl. inversion Hl; subst decoded.
      vm_compute in Hb. inversion Hb; subst body.
      vm_compute in Hd. inversion Hd; subst dry_run.
      vm_compute in Hs. inversion Hs; subst listed.
      vm_compute in Hit. inversion Hit; subst secrets. reflexivity.
    + rewrite H. reflexivity.
Defined.

Lemma promote_unknown_user_witness :
  fst (update_user_to_group_admin "g-ops" "u-zed" promote_alice) = Raise TypeError /\
  List.length (outbox (snd (update_user_to_group_admin "g-ops" "u-zed" promote_alice))) =
    1%nat.
Proof.
  destruct (promote_unknown_user "g-ops" "u-zed" promote_alice
              (reply 200 "users") [reply 200 "ok"; reply 200 "ok"]
              (envelope 200 (JArr [bob; alice; alice_again]))
              [bob; alice; alice_again] eq_refl eq_refl eq_refl) as (_ & _ & E).
  - repeat constructor.
  - rewrite E. split; reflexivity.
Defined.

Lemma promote_non_member_witness :
  fst (get_group_user_id "g-none" "u-alice" promote_alice) = Ok JNull /\
  option_map json_body
    (nth_error (outbox (snd (update_user_to_group_admin "g-none" "u-alice" promote_alice)))
       1) =
    Some (Some (JObj [
      ("id", JStr "g-none");
      ("groups_users", JArr [JObj [("id", JNull); ("is_admin", JBool true)]])])).
Proof.
  destruct (promote_non_member "g-none" "u-alice" promote_alice
              (reply 200 "users") [reply 200 "ok"; reply 200 "ok"]
              (envelope 200 (JArr [bob; alice; alice_again])) alice
              [bob; alice; alice_again] alice_memberships
              eq_refl eq_refl eq_refl) as (Hid & Hput).
  - repeat constructor.
  - reflexivity.
  - reflexivity.
  - repeat constructor.
  - split; [exact Hid|].
    change 1%nat with (S (List.length (outbox promote_alice))). now rewrite Hput.
Defined.

Lemma reads_ignore_status_witness :
  get_users (with_inbox [reply 200 "users"] listing) =
  get_users (with_inbox [reply_with 500 "retry-after" "1" "users"] listing).
Proof.
  exact (proj1 (reads_ignore_status listing "")
           (reply 200 "users") (reply_with 500 "retry-after" "1" "users") [] eq_refl).
Defined.

Lemma lookups_sound_witness :
  exists items, found_in "username" "alice@example.com" items alice.
Proof.
  destruct (proj1 (lookups_sound listing) "alice@example.com" alice eq_refl)
    as (r & rest & decoded & body & items & _ & _ & _ & _ & H).
  now exists items.
Defined.

Lemma get_cookie_completes_iff_witness :
  let w := facing me [reply_with 200 "set-cookie" "csrfToken=abcdef; path=/" "me"] in
  exists id cookie,
    self (snd (get_cookie w)) =
      set_session_headers [("X-CSRF-Token", slice cookie 10 (-8))]
        (set_token (JStr (slice cookie 10 (-8))) (set_USER_ID id me)).
Proof.
  destruct (proj1 (get_cookie_completes_iff
                     (facing me [reply_with 200 "set-cookie"
                                   "csrfToken=abcdef; path=/" "me"])
                     (snd (get_cookie
                             (facing me [reply_with 200 "set-cookie"
                                           "csrfToken=abcdef; path=/" "me"])))))
    as (r & rest & decoded & body & id & cookie & _ & _ & _ & _ & _ & H).
  - vm_compute. reflexivity.
  - exists id, cookie. cbv zeta. rewrite H. reflexivity.
Defined.

Lemma encrypt_imports_first_witness :
  let w := facing logged_in [] in
  encrypt "hunter2" (JObj [("armored_key", JStr "KEY-BOB")]) w =
    (Raise KeyError, with_gpg [JStr "KEY-BOB"] w).
Proof.
  exact (proj1 (proj2 (proj2 (encrypt_imports_first "hunter2"
                                (JObj [("armored_key", JStr "KEY-BOB")])
                                (facing logged_in []))))
           (JStr "KEY-BOB") KeyError [JStr "KEY-BOB"] eq_refl eq_refl eq_refl).
Defined.


Example reads_run :
  fst (get_user_public_key "u-bob" (facing logged_in [reply 403 "bob"])) = Ok bob_key /\
  fst (get_resources (facing logged_in [reply 403 "forbidden"])) = Ok (JStr "Forbidden") /\
  fst (get_resource_secret "r-1" (facing logged_in [reply 403 "forbidden"])) =
    Raise TypeError /\
  map url (outbox (snd (get_resource_per_uuid "r-1" (facing logged_in [])))) =
    ["https://pb.example/resources/r-1.json"].
Proof. vm_compute. repeat split. Qed.
